(** * Table Timer: the time-driven state machine of [timer-sketch.ino]

    A shallow embedding of the Arduino sketch.  The sketch keeps all of its
    state in global variables and runs [updateTime], [readEncoder] and
    [updateDisplay] in a single cooperative loop; here the globals are one
    record, every [void] function of the sketch is a function from state to
    state, and what the sketch does to the outside world (motor pin, busy
    waits, display redraws) is appended to a trace of events.

    Conventions.
    - C [int] values are integers in [Z]; [/] and [%] are the truncating
      [Z.quot] and [Z.rem] of C.  All values the sketch computes stay far
      below the 32-bit range, so no wrap-around is written for [int].
    - [unsigned long] values (the millisecond counter and the timestamps
      compared with it) are integers in [Z] with the 32-bit wrap-around of
      the target written out ([uwrap]).
    - [millis()] reads the field [clock].  Only [delay] and the environment
      ([elapse]) move the clock: the running time of the other statements is
      not modelled. *)

From Stdlib Require Import ZArith List Bool Lia.
Import ListNotations.
Local Open Scope Z_scope.

(** ** Compile-time constants of the sketch *)

Definition FRAME_COUNT : Z := 28.
Definition NUM_ANIMATIONS : Z := 6.
Definition SECONDS_PER_MINUTE : Z := 60.
Definition HALF_HOURS_PER_DAY : Z := 48.
Definition HALF_MINUTES_PER_HOUR : Z := 120.
Definition MILLIS_PER_SECOND : Z := 1000.
Definition DISPLAY_UPDATE_INTERVAL_MS : Z := 100.
Definition MOTOR_BUZZ_DURATION_MS : Z := 70.
Definition MOTOR_PAUSE_DURATION_MS : Z := 70.
Definition MOTOR_CYCLE_PAUSE_MS : Z := 60.
Definition MOTOR_BUZZ_CYCLES : Z := 3.
Definition MOTOR_BUZZ_GROUPS : Z := 5.
Definition debounceDelay : Z := 250.

(** ** [unsigned long] arithmetic *)

Definition ULONG_MODULUS : Z := 2 ^ 32.
Definition uwrap (z : Z) : Z := z mod ULONG_MODULUS.
Definition uadd (a b : Z) : Z := uwrap (a + b).
Definition usub (a b : Z) : Z := uwrap (a - b).

(** ** Pins, events and the program state *)

Inductive level : Type := LOW | HIGH.

Definition level_eqb (a b : level) : bool :=
  match a, b with
  | LOW, LOW | HIGH, HIGH => true
  | _, _ => false
  end.

(** The three encoder inputs sampled by [digitalRead]. *)
Record Pins : Type := mkPins {
  ENCODER_CLK : level;
  ENCODER_DT : level;
  ENCODER_SW : level
}.

(** What the sketch does to its collaborators, in program order.
    [EvDraw f hh mm dots] is one committed redraw: bitmap [frames[f]], the
    text printed from [hh] and [mm] with the format [%02d:%02d], and [dots]
    second marks. *)
Inductive event : Type :=
| EvMotor (l : level)
| EvDelay (ms : Z)
| EvDraw (f hh mm : Z) (dots : nat).

Record State : Type := mkState {
  (* animation state *)
  animation_index : Z;
  last_animation : Z;
  frame : Z;
  (* time of day *)
  hours_half : Z;
  minutes_half : Z;
  seconds : Z;
  lastMillis : Z;
  (* encoder and button *)
  lastCLK : level;
  setHours : bool;
  lastButtonTime : Z;
  (* the static local of updateDisplay *)
  lastDraw : Z;
  (* the board: millisecond counter, motor pin, everything done so far *)
  clock : Z;
  motor : level;
  trace : list event
}.

Definition set_animation_index (v : Z) (s : State) : State :=
  mkState v (last_animation s) (frame s) (hours_half s) (minutes_half s)
    (seconds s) (lastMillis s) (lastCLK s) (setHours s) (lastButtonTime s)
    (lastDraw s) (clock s) (motor s) (trace s).

Definition set_last_animation (v : Z) (s : State) : State :=
  mkState (animation_index s) v (frame s) (hours_half s) (minutes_half s)
    (seconds s) (lastMillis s) (lastCLK s) (setHours s) (lastButtonTime s)
    (lastDraw s) (clock s) (motor s) (trace s).

Definition set_frame (v : Z) (s : State) : State :=
  mkState (animation_index s) (last_animation s) v (hours_half s)
    (minutes_half s) (seconds s) (lastMillis s) (lastCLK s) (setHours s)
    (lastButtonTime s) (lastDraw s) (clock s) (motor s) (trace s).

Definition set_hours_half (v : Z) (s : State) : State :=
  mkState (animation_index s) (last_animation s) (frame s) v (minutes_half s)
    (seconds s) (lastMillis s) (lastCLK s) (setHours s) (lastButtonTime s)
    (lastDraw s) (clock s) (motor s) (trace s).

Definition set_minutes_half (v : Z) (s : State) : State :=
  mkState (animation_index s) (last_animation s) (frame s) (hours_half s) v
    (seconds s) (lastMillis s) (lastCLK s) (setHours s) (lastButtonTime s)
    (lastDraw s) (clock s) (motor s) (trace s).

Definition set_seconds (v : Z) (s : State) : State :=
  mkState (animation_index s) (last_animation s) (frame s) (hours_half s)
    (minutes_half s) v (lastMillis s) (lastCLK s) (setHours s)
    (lastButtonTime s) (lastDraw s) (clock s) (motor s) (trace s).

Definition set_lastMillis (v : Z) (s : State) : State :=
  mkState (animation_index s) (last_animation s) (frame s) (hours_half s)
    (minutes_half s) (seconds s) v (lastCLK s) (setHours s)
    (lastButtonTime s) (lastDraw s) (clock s) (motor s) (trace s).

Definition set_lastCLK (v : level) (s : State) : State :=
  mkState (animation_index s) (last_animation s) (frame s) (hours_half s)
    (minutes_half s) (seconds s) (lastMillis s) v (setHours s)
    (lastButtonTime s) (lastDraw s) (clock s) (motor s) (trace s).

Definition set_setHours (v : bool) (s : State) : State :=
  mkState (animation_index s) (last_animation s) (frame s) (hours_half s)
    (minutes_half s) (seconds s) (lastMillis s) (lastCLK s) v
    (lastButtonTime s) (lastDraw s) (clock s) (motor s) (trace s).

Definition set_lastButtonTime (v : Z) (s : State) : State :=
  mkState (animation_index s) (last_animation s) (frame s) (hours_half s)
    (minutes_half s) (seconds s) (lastMillis s) (lastCLK s) (setHours s) v
    (lastDraw s) (clock s) (motor s) (trace s).

Definition set_lastDraw (v : Z) (s : State) : State :=
  mkState (animation_index s) (last_animation s) (frame s) (hours_half s)
    (minutes_half s) (seconds s) (lastMillis s) (lastCLK s) (setHours s)
    (lastButtonTime s) v (clock s) (motor s) (trace s).

Definition set_clock (v : Z) (s : State) : State :=
  mkState (animation_index s) (last_animation s) (frame s) (hours_half s)
    (minutes_half s) (seconds s) (lastMillis s) (lastCLK s) (setHours s)
    (lastButtonTime s) (lastDraw s) v (motor s) (trace s).

Definition set_motor (v : level) (s : State) : State :=
  mkState (animation_index s) (last_animation s) (frame s) (hours_half s)
    (minutes_half s) (seconds s) (lastMillis s) (lastCLK s) (setHours s)
    (lastButtonTime s) (lastDraw s) (clock s) v (trace s).

Definition emit (e : event) (s : State) : State :=
  mkState (animation_index s) (last_animation s) (frame s) (hours_half s)
    (minutes_half s) (seconds s) (lastMillis s) (lastCLK s) (setHours s)
    (lastButtonTime s) (lastDraw s) (clock s) (motor s) (trace s ++ [e]).

(** ** The board *)

Definition Cmd : Type := State -> State.

Definition millis (s : State) : Z := clock s.

(** [delay(ms)]: a busy wait; the counter moves on by [ms]. *)
Definition delay (ms : Z) : Cmd := fun s =>
  emit (EvDelay ms) (set_clock (uadd (clock s) ms) s).

(** [digitalWrite(MOTOR, l)]. *)
Definition digitalWrite_MOTOR (l : level) : Cmd := fun s =>
  emit (EvMotor l) (set_motor l s).

(** Time that passes outside of [delay], between two statements of the
    loop. *)
Definition elapse (dt : Z) : Cmd := fun s =>
  set_clock (uadd (clock s) dt) s.

(** [for (int i = 0; i < n; i++) body(i)]. *)
Fixpoint for_from (i : Z) (count : nat) (body : Z -> Cmd) : Cmd := fun s =>
  match count with
  | O => s
  | S k => for_from (i + 1) k body (body i s)
  end.

Definition for_loop (n : Z) (body : Z -> Cmd) : Cmd :=
  for_from 0 (Z.to_nat n) body.

(** ** The sketch *)

(** [updateDisplay] (lines 229-267).  Rate limited by its static
    [lastDraw]; a redraw shows [frames[frame]] and only then advances
    [frame] into the band of the current [animation_index]. *)
Definition updateDisplay : Cmd := fun s =>
  if usub (millis s) (lastDraw s) <? DISPLAY_UPDATE_INTERVAL_MS then s
  else
    let s := set_lastDraw (millis s) s in
    let s := emit (EvDraw (frame s) (hours_half s ÷ 2) (minutes_half s ÷ 2)
                     (Z.to_nat (seconds s))) s in
    set_frame
      (Z.rem (frame s + 1) FRAME_COUNT + animation_index s * FRAME_COUNT) s.

(** [selectAnimationByTime] (lines 146-164): five sequential [if]s, later
    ones overriding earlier ones. *)
Definition selectAnimationByTime : Cmd := fun s =>
  let currentHour := hours_half s ÷ 2 in
  let currentMinute := minutes_half s ÷ 2 in
  let s := if 10 <=? minutes_half s then set_animation_index 0 s else s in
  let s := if currentHour =? 12 then set_animation_index 6 s else s in
  let s := if (currentHour =? 16) && (currentMinute <=? 15)
           then set_animation_index 7 s else s in
  let s := if (19 <=? currentHour) || (currentHour <? 8)
           then set_animation_index 8 s else s in
  let s := if (8 <=? currentHour) && (currentHour <=? 9)
           then set_animation_index 9 s else s in
  s.

(** The body of the inner loop of [triggerMotorBuzz] (lines 172-179). *)
Definition buzz_cycle : Cmd := fun s =>
  let s := digitalWrite_MOTOR HIGH s in
  let s := updateDisplay s in
  let s := delay MOTOR_BUZZ_DURATION_MS s in
  let s := updateDisplay s in
  let s := delay MOTOR_BUZZ_DURATION_MS s in
  let s := digitalWrite_MOTOR LOW s in
  let s := updateDisplay s in
  delay MOTOR_PAUSE_DURATION_MS s.

(** The body of the outer loop of [triggerMotorBuzz] (lines 171-182). *)
Definition buzz_group : Cmd := fun s =>
  let s := for_loop MOTOR_BUZZ_CYCLES (fun _ => buzz_cycle) s in
  let s := updateDisplay s in
  delay MOTOR_CYCLE_PAUSE_MS s.

(** [triggerMotorBuzz] (lines 169-184). *)
Definition triggerMotorBuzz : Cmd :=
  for_loop MOTOR_BUZZ_GROUPS (fun _ => buzz_group).

(** Lines 124-126: the next hourly animation, with the frame cursor moved
    into its band. *)
Definition cycleAnimation : Cmd := fun s =>
  let s := set_last_animation (Z.rem (last_animation s) NUM_ANIMATIONS + 1) s in
  let s := set_animation_index (last_animation s) s in
  set_frame
    (Z.rem (frame s + 1) FRAME_COUNT + animation_index s * FRAME_COUNT) s.

(** The hour rollover inside [updateTime] (the body of the [if] of lines
    119-134). *)
Definition hourRollover : Cmd := fun s =>
  let s := set_minutes_half 0 s in
  let s := set_hours_half (Z.rem (hours_half s + 2) HALF_HOURS_PER_DAY) s in
  let s := cycleAnimation s in
  let s := updateDisplay s in
  let currentHour := hours_half s ÷ 2 in
  if (9 <=? currentHour) && (currentHour <=? 19) then triggerMotorBuzz s
  else s.

(** Lines 113-116: the minute boundary. *)
Definition minuteCascade : Cmd := fun s =>
  if SECONDS_PER_MINUTE <=? seconds s
  then set_minutes_half (minutes_half s + 2) (set_seconds 0 s)
  else s.

(** Lines 119-134: the hour boundary. *)
Definition hourCascade : Cmd := fun s =>
  if HALF_MINUTES_PER_HOUR <=? minutes_half s then hourRollover s else s.

(** [updateTime] (lines 104-140). *)
Definition updateTime : Cmd := fun s =>
  let now := millis s in
  if MILLIS_PER_SECOND <=? usub now (lastMillis s) then
    let s := set_lastMillis (uadd (lastMillis s) MILLIS_PER_SECOND) s in
    let s := set_seconds (seconds s + 1) s in
    let s := minuteCascade s in
    let s := hourCascade s in
    selectAnimationByTime s
  else s.

(** [adjustTime] (lines 214-224). *)
Definition adjustTime (delta : Z) : Cmd := fun s =>
  if setHours s then
    set_hours_half
      (Z.rem (hours_half s + delta + HALF_HOURS_PER_DAY) HALF_HOURS_PER_DAY) s
  else
    let s := set_minutes_half (minutes_half s + delta) s in
    let s := if minutes_half s <? 0
             then set_minutes_half (HALF_MINUTES_PER_HOUR - 1) s else s in
    let s := if HALF_MINUTES_PER_HOUR <=? minutes_half s
             then set_minutes_half 0 s else s in
    s.

(** [readEncoder] (lines 189-208), on the pin levels it samples. *)
Definition readEncoder (p : Pins) : Cmd := fun s =>
  let currentCLK := ENCODER_CLK p in
  let s := if level_eqb currentCLK (lastCLK s) then s
           else if level_eqb (ENCODER_DT p) currentCLK
                then adjustTime (-1) s
                else adjustTime 1 s in
  let s := set_lastCLK currentCLK s in
  if level_eqb (ENCODER_SW p) LOW then
    if debounceDelay <? usub (millis s) (lastButtonTime s) then
      let s := set_seconds 0 s in
      let s := set_setHours (negb (setHours s)) s in
      set_lastButtonTime (millis s) s
    else s
  else s.

(** [loop] (lines 98-102). *)
Definition loop (p : Pins) : Cmd := fun s =>
  updateDisplay (readEncoder p (updateTime s)).

(** [setup] (lines 74-96) and the initialisers of the globals.  The sketch
    halts for good when the display is not found: that is [None]. *)
Definition setup (oled_found : bool) (p : Pins) : option State :=
  if oled_found then
    Some {| animation_index := 0; last_animation := 1; frame := 0;
            hours_half := 24; minutes_half := 0; seconds := 0;
            lastMillis := 0;
            lastCLK := ENCODER_CLK p; setHours := false;
            lastButtonTime := 0;
            lastDraw := 0;
            clock := 0; motor := LOW; trace := [EvMotor LOW] |}
  else None.

(** The states the running sketch can be in: [setup] succeeded, then any
    number of loop iterations with any pin levels, and any amount of time
    passing in between. *)
Inductive reachable : State -> Prop :=
| reach_setup p s : setup true p = Some s -> reachable s
| reach_elapse dt s : 0 <= dt -> reachable s -> reachable (elapse dt s)
| reach_loop p s : reachable s -> reachable (loop p s).

(** ** Concrete states and inputs used in examples *)

(** No rotation, button released (the inputs are pulled up). *)
Definition idle_pins : Pins := mkPins HIGH HIGH HIGH.

(** Button held down, no rotation. *)
Definition pressed_pins : Pins := mkPins HIGH HIGH LOW.

(** The state in which [loop] first runs: 12:00:00, minute mode. *)
Definition power_on : State :=
  {| animation_index := 0; last_animation := 1; frame := 0;
     hours_half := 24; minutes_half := 0; seconds := 0;
     lastMillis := 0;
     lastCLK := HIGH; setHours := false;
     lastButtonTime := 0;
     lastDraw := 0;
     clock := 0; motor := LOW; trace := [EvMotor LOW] |}.

(** [power_on] with the time of day and the edit mode replaced. *)
Definition at_time (hh mh : Z) (hour_mode : bool) : State :=
  set_setHours hour_mode (set_minutes_half mh (set_hours_half hh power_on)).

(** ** Observations on traces *)

(** The events a command appended when it took [s] to [s']. *)
Definition emitted (s s' : State) : list event :=
  skipn (length (trace s)) (trace s').

Definition is_pin_event (e : event) : bool :=
  match e with
  | EvDraw _ _ _ _ => false
  | _ => true
  end.

(** A trace without its redraws: motor writes and busy waits only. *)
Definition pin_events (evs : list event) : list event :=
  filter is_pin_event evs.

(** The time spent in [delay]. *)
Fixpoint total_delay (evs : list event) : Z :=
  match evs with
  | [] => 0
  | EvDelay ms :: tl => ms + total_delay tl
  | _ :: tl => total_delay tl
  end.

(** The lengths, in program order, of the maximal periods during which the
    motor pin is HIGH.  [lvl] is the level of the pin before [evs] and [acc]
    the time it has already been HIGH. *)
Fixpoint on_intervals (lvl : level) (acc : Z) (evs : list event) : list Z :=
  match evs with
  | [] => match lvl with HIGH => [acc] | LOW => [] end
  | EvMotor HIGH :: tl =>
      on_intervals HIGH (match lvl with HIGH => acc | LOW => 0 end) tl
  | EvMotor LOW :: tl =>
      match lvl with
      | HIGH => acc :: on_intervals LOW 0 tl
      | LOW => on_intervals LOW 0 tl
      end
  | EvDelay ms :: tl =>
      on_intervals lvl (match lvl with HIGH => acc + ms | LOW => acc end) tl
  | EvDraw _ _ _ _ :: tl => on_intervals lvl acc tl
  end.

(** The frames shown by the redraws of a trace, in program order. *)
Fixpoint drawn_frames (evs : list event) : list Z :=
  match evs with
  | [] => []
  | EvDraw f _ _ _ :: tl => f :: drawn_frames tl
  | _ :: tl => drawn_frames tl
  end.

(** What one inner cycle and the whole of [triggerMotorBuzz] do to the
    motor pin and the clock. *)
Definition cycle_pattern : list event :=
  [EvMotor HIGH; EvDelay MOTOR_BUZZ_DURATION_MS; EvDelay MOTOR_BUZZ_DURATION_MS;
   EvMotor LOW; EvDelay MOTOR_PAUSE_DURATION_MS].

Definition group_pattern : list event :=
  concat (repeat cycle_pattern (Z.to_nat MOTOR_BUZZ_CYCLES))
    ++ [EvDelay MOTOR_CYCLE_PAUSE_MS].

Definition buzz_pattern : list event :=
  concat (repeat group_pattern (Z.to_nat MOTOR_BUZZ_GROUPS)).

(** Between [s] and [s'] the trace grew by events whose motor writes and
    busy waits are exactly [pat]. *)
Definition appends (s s' : State) (pat : list event) : Prop :=
  exists evs, trace s' = trace s ++ evs /\ pin_events evs = pat.

(** [c] does so from every start state. *)
Definition emits (c : Cmd) (pat : list event) : Prop :=
  forall s, appends s (c s) pat.

(** The frame band of an animation in the flat frame table. *)
Definition in_band (anim f : Z) : Prop :=
  anim * FRAME_COUNT <= f < (anim + 1) * FRAME_COUNT.

(** ** The variables that neither the display nor the motor code writes *)

Record same_vars (s s' : State) : Prop := mkSameVars {
  sv_animation_index : animation_index s' = animation_index s;
  sv_last_animation : last_animation s' = last_animation s;
  sv_hours_half : hours_half s' = hours_half s;
  sv_minutes_half : minutes_half s' = minutes_half s;
  sv_seconds : seconds s' = seconds s;
  sv_lastMillis : lastMillis s' = lastMillis s;
  sv_lastCLK : lastCLK s' = lastCLK s;
  sv_setHours : setHours s' = setHours s;
  sv_lastButtonTime : lastButtonTime s' = lastButtonTime s
}.

(** ** The minute increment of the clock, on its own *)

(** What [updateTime] does at a minute boundary once [seconds] is back at
    zero: lines 115 and 119-134. *)
Definition minuteIncrement : Cmd := fun s =>
  hourCascade (set_minutes_half (minutes_half s + 2) s).

(** How many of [n] successive minute increments take the hour-rollover
    branch of line 119. *)
Fixpoint rollovers (n : nat) (s : State) : nat :=
  match n with
  | O => O
  | S k =>
      let rest := rollovers k (minuteIncrement s) in
      if HALF_MINUTES_PER_HOUR <=? minutes_half s + 2 then S rest else rest
  end.

(** The same two functions on the minute field alone. *)
Definition minute_step (m : Z) : Z :=
  if HALF_MINUTES_PER_HOUR <=? m + 2 then 0 else m + 2.

Fixpoint minute_rollovers (n : nat) (m : Z) : nat :=
  match n with
  | O => O
  | S k =>
      let rest := minute_rollovers k (minute_step m) in
      if HALF_MINUTES_PER_HOUR <=? m + 2 then S rest else rest
  end.

(** The hour field after one rollover (line 121). *)
Definition hour_step (h : Z) : Z := Z.rem (h + 2) HALF_HOURS_PER_DAY.

(** Sixty minute increments from [m]: one rollover, and back at [m] when
    [m] is even, at [m - 1] when it is odd. *)
Definition minute_cycle_ok (m : Z) : bool :=
  (Nat.iter 60 minute_step m =? (if Z.even m then m else m - 1))
  && Nat.eqb (minute_rollovers 60 m) 1.

(** ** The rules of [selectAnimationByTime] as predicates on the time *)

(** Some rule of [selectAnimationByTime] fires at this time of day. *)
Definition some_rule_fires (hh mh : Z) : bool :=
  (10 <=? mh)
  || (hh ÷ 2 =? 12)
  || ((hh ÷ 2 =? 16) && (mh ÷ 2 <=? 15))
  || ((19 <=? hh ÷ 2) || (hh ÷ 2 <? 8))
  || ((8 <=? hh ÷ 2) && (hh ÷ 2 <=? 9)).

(** The button branch of [readEncoder] is taken: the button reads pressed
    and strictly more than [debounceDelay] ms have passed on the wrapping
    counter since [lastButtonTime]. *)
Definition press_accepted (p : Pins) (s : State) : bool :=
  level_eqb (ENCODER_SW p) LOW
  && (debounceDelay <? usub (clock s) (lastButtonTime s)).

(** A second boundary is due at the next [updateTime]. *)
Definition second_due (s : State) : bool :=
  MILLIS_PER_SECOND <=? usub (clock s) (lastMillis s).

(** The ranges of the time of day. *)
Definition valid_time (s : State) : Prop :=
  0 <= hours_half s < HALF_HOURS_PER_DAY /\
  0 <= minutes_half s < HALF_MINUTES_PER_HOUR /\
  0 <= seconds s < SECONDS_PER_MINUTE.

(** The locals [currentHour] and [currentMinute] of the sketch. *)
Definition currentHour (s : State) : Z := hours_half s ÷ 2.
Definition currentMinute (s : State) : Z := minutes_half s ÷ 2.

(** ** Further observations *)

(** The time of day that the display shows, in seconds since midnight. *)
Definition SECONDS_PER_DAY : Z := 86400.

Definition time_of_day (s : State) : Z :=
  currentHour s * 3600 + currentMinute s * 60 + seconds s.

(** The largest index that the sketch ever assigns to [animation_index]
    (line 163). *)
Definition MAX_ANIMATION_INDEX : Z := 9.

(** An index into [frames] below the end of the last band in use. *)
Definition frame_in_table (f : Z) : Prop :=
  0 <= f < (MAX_ANIMATION_INDEX + 1) * FRAME_COUNT.

Definition draw_in_table (e : event) : Prop :=
  match e with
  | EvDraw f _ _ _ => frame_in_table f
  | _ => True
  end.

(** The ranges of the animation state, and of every frame drawn so far. *)
Record valid_anim (s : State) : Prop := mkValidAnim {
  va_index : 0 <= animation_index s <= MAX_ANIMATION_INDEX;
  va_last : 1 <= last_animation s <= NUM_ANIMATIONS;
  va_frame : frame_in_table (frame s);
  va_trace : Forall draw_in_table (trace s)
}.

(** The test of line 131 on the hour field: the work hours 9 to 19. *)
Definition active_hour (hh : Z) : bool :=
  (9 <=? hh ÷ 2) && (hh ÷ 2 <=? 19).

(** How many of the next [n] hours, counted from the hour after [hh], are
    work hours. *)
Fixpoint active_count (n : nat) (hh : Z) : nat :=
  match n with
  | O => O
  | S k =>
      let rest := active_count k (hour_step hh) in
      if active_hour (hour_step hh) then S rest else rest
  end.

(** The frame cursor after one redraw (line 266). *)
Definition frame_step (anim f : Z) : Z :=
  Z.rem (f + 1) FRAME_COUNT + anim * FRAME_COUNT.

(** One pass of the loop body on the display alone, 100 ms after the
    previous one. *)
Definition redraw_after_interval : Cmd := fun s =>
  updateDisplay (elapse DISPLAY_UPDATE_INTERVAL_MS s).

(** The hour field after one manual step in hour mode (line 217). *)
Definition hour_adjust (delta h : Z) : Z :=
  Z.rem (h + delta + HALF_HOURS_PER_DAY) HALF_HOURS_PER_DAY.

(** The minute field after one manual step in minute mode (lines
    220-222). *)
Definition minute_adjust (delta m : Z) : Z :=
  if m + delta <? 0 then HALF_MINUTES_PER_HOUR - 1
  else if HALF_MINUTES_PER_HOUR <=? m + delta then 0
  else m + delta.

(** The pending time that [updateTime] compares with one second. *)
Definition backlog (s : State) : Z := usub (clock s) (lastMillis s).

(** The call of [updateTime] that is due in [s] crosses an hour boundary:
    the test of line 119 after lines 110-116. *)
Definition hour_boundary (s : State) : bool :=
  HALF_MINUTES_PER_HOUR
  <=? (if SECONDS_PER_MINUTE <=? seconds s + 1
       then minutes_half s + 2 else minutes_half s).

(** The call of [updateTime] in [s] runs the motor pattern. *)
Definition buzzes (s : State) : bool :=
  second_due s && hour_boundary s && active_hour (hour_step (hours_half s)).

(** The hourly animation after one rollover (line 124). *)
Definition animation_step (l : Z) : Z := Z.rem l NUM_ANIMATIONS + 1.

(** A redraw shows a frame of the band of animation [a]. *)
Definition draw_in_band (a : Z) (e : event) : Prop :=
  match e with
  | EvDraw f _ _ _ => in_band a f
  | _ => True
  end.

(** Since the trace was [base], the animation has been [a], with the
    cursor and every frame drawn in its band. *)
Definition draws_within (a : Z) (base : list event) (t : State) : Prop :=
  animation_index t = a /\
  in_band a (frame t) /\
  exists evs, trace t = base ++ evs /\ Forall (draw_in_band a) evs.

(** * Proofs *)

(** Linear arithmetic with the truncating division of C and the 32-bit
    wrap-around. *)
Ltac arith :=
  unfold uadd, usub, uwrap, ULONG_MODULUS in *;
  Z.to_euclidean_division_equations; lia.

Ltac unfold_constants :=
  unfold FRAME_COUNT, NUM_ANIMATIONS, SECONDS_PER_MINUTE, HALF_HOURS_PER_DAY,
    HALF_MINUTES_PER_HOUR, MILLIS_PER_SECOND, DISPLAY_UPDATE_INTERVAL_MS,
    MOTOR_BUZZ_DURATION_MS, MOTOR_PAUSE_DURATION_MS, MOTOR_CYCLE_PAUSE_MS,
    MOTOR_BUZZ_CYCLES, MOTOR_BUZZ_GROUPS, debounceDelay in *.

(** Projections of updated records, and nothing else, are computed. *)
Ltac state_simpl :=
  cbv beta iota zeta delta
    [set_animation_index set_last_animation set_frame set_hours_half
     set_minutes_half set_seconds set_lastMillis set_lastCLK set_setHours
     set_lastButtonTime set_lastDraw set_clock set_motor emit
     animation_index last_animation frame hours_half minutes_half seconds
     lastMillis lastCLK setHours lastButtonTime lastDraw clock motor trace
     millis] in *.

(** Case analysis on the first [if] of the goal, keeping its test as a
    (linear) fact. *)
Ltac split_if :=
  match goal with
  | |- context [if ?b then _ else _] =>
      let E := fresh "E" in destruct b eqn:E
  end.

Ltac to_linear :=
  repeat match goal with
    | H : (_ && _) = true |- _ => apply andb_true_iff in H; destruct H
    | H : (_ && _) = false |- _ => apply andb_false_iff in H
    | H : (_ || _) = true |- _ => apply orb_true_iff in H
    | H : (_ || _) = false |- _ => apply orb_false_iff in H; destruct H
    | H : (_ <=? _) = true |- _ => apply Z.leb_le in H
    | H : (_ <=? _) = false |- _ => apply Z.leb_gt in H
    | H : (_ <? _) = true |- _ => apply Z.ltb_lt in H
    | H : (_ <? _) = false |- _ => apply Z.ltb_ge in H
    | H : (_ =? _) = true |- _ => apply Z.eqb_eq in H
    | H : (_ =? _) = false |- _ => apply Z.eqb_neq in H
    end.

(** ** [selectAnimationByTime] *)

Section SelectAnimation.

Variable s : State.

(** The function writes [animation_index] and nothing else. *)
Lemma select_writes_only_index :
  exists v, selectAnimationByTime s = set_animation_index v s.
Proof.
  unfold selectAnimationByTime.
  destruct s; cbn.
  repeat split_if; cbn; eexists; reflexivity.
Qed.

(** The resulting index as a function of the time of day and the index
    before the call. *)
Lemma select_index :
  animation_index (selectAnimationByTime s) =
    let h := currentHour s in
    let a := if 10 <=? minutes_half s then 0 else animation_index s in
    let a := if h =? 12 then 6 else a in
    let a := if (h =? 16) && (currentMinute s <=? 15) then 7 else a in
    let a := if (19 <=? h) || (h <? 8) then 8 else a in
    if (8 <=? h) && (h <=? 9) then 9 else a.
Proof.
  unfold selectAnimationByTime, currentHour, currentMinute.
  destruct s; cbn.
  repeat split_if; reflexivity.
Qed.

End SelectAnimation.

(** C6.  The boundary cases of the animation selection: at 16:15 the
    afternoon break (7) is selected, at 16:16 the work default (0); at 8:00
    the morning animation (9); at 19:00 the evening animation (8). *)
Theorem select_boundary_cases (s : State) :
  (currentHour s = 16 -> currentMinute s = 15 ->
   animation_index (selectAnimationByTime s) = 7) /\
  (currentHour s = 16 -> currentMinute s = 16 ->
   animation_index (selectAnimationByTime s) = 0) /\
  (currentHour s = 8 -> currentMinute s = 0 ->
   animation_index (selectAnimationByTime s) = 9) /\
  (currentHour s = 19 -> currentMinute s = 0 ->
   animation_index (selectAnimationByTime s) = 8).
Proof.
  rewrite select_index.
  repeat split; intros Hh Hm; cbv zeta; rewrite Hh, ?Hm; cbn;
    try reflexivity.
  unfold currentMinute in Hm.
  replace (10 <=? minutes_half s) with true; [reflexivity|].
  symmetry; apply Z.leb_le. arith.
Qed.

Lemma select_boundary_cases_witness :
  animation_index (selectAnimationByTime (at_time 32 30 false)) = 7 /\
  animation_index (selectAnimationByTime (at_time 33 32 false)) = 0 /\
  animation_index (selectAnimationByTime (at_time 16 0 false)) = 9 /\
  animation_index (selectAnimationByTime (at_time 38 1 false)) = 8.
Proof.
  split; [|split; [|split]].
  - apply (proj1 (select_boundary_cases (at_time 32 30 false))); reflexivity.
  - apply (proj1 (proj2 (select_boundary_cases (at_time 33 32 false))));
      reflexivity.
  - apply (proj1 (proj2 (proj2 (select_boundary_cases (at_time 16 0 false)))));
      reflexivity.
  - apply (proj2 (proj2 (proj2 (select_boundary_cases (at_time 38 1 false)))));
      reflexivity.
Defined.

(** C5, counterexample.  At 13:00 no rule fires, so the call keeps whatever
    index it finds: two states that agree on [hours_half], [minutes_half]
    and [last_animation] end with different indices.  (The first state is
    the one right after the 13:00 rollover, the second one is reached by
    turning the minutes back from 13:20.) *)
Lemma select_depends_on_prior_index :
  let s1 := set_animation_index 2 (set_last_animation 2 (at_time 26 0 false)) in
  let s2 := set_animation_index 0 (set_last_animation 2 (at_time 26 0 false)) in
  hours_half s1 = hours_half s2 /\
  minutes_half s1 = minutes_half s2 /\
  last_animation s1 = last_animation s2 /\
  animation_index (selectAnimationByTime s1) = 2 /\
  animation_index (selectAnimationByTime s2) = 0 /\
  animation_index (selectAnimationByTime s1)
    <> animation_index (selectAnimationByTime s2).
Proof.
  cbv zeta. repeat (split; [reflexivity|]). discriminate.
Qed.

(** C5, amended.  The selected index is a function of [hours_half],
    [minutes_half] and the index before the call; [last_animation] is not
    read.  When some rule fires the index before the call does not matter,
    and when none fires it is kept. *)
Theorem select_deterministic (s1 s2 : State)
    (Hh : hours_half s1 = hours_half s2)
    (Hm : minutes_half s1 = minutes_half s2) :
  (animation_index s1 = animation_index s2 ->
   animation_index (selectAnimationByTime s1)
     = animation_index (selectAnimationByTime s2)) /\
  (some_rule_fires (hours_half s1) (minutes_half s1) = true ->
   animation_index (selectAnimationByTime s1)
     = animation_index (selectAnimationByTime s2)) /\
  (some_rule_fires (hours_half s1) (minutes_half s1) = false ->
   animation_index (selectAnimationByTime s1) = animation_index s1).
Proof.
  rewrite !select_index.
  unfold currentHour, currentMinute, some_rule_fires.
  rewrite <- Hh, <- Hm. cbv zeta.
  split; [|split].
  - intros ->. reflexivity.
  - intros H.
    destruct (10 <=? minutes_half s1),
      (hours_half s1 ÷ 2 =? 12),
      ((hours_half s1 ÷ 2 =? 16) && (minutes_half s1 ÷ 2 <=? 15)),
      ((19 <=? hours_half s1 ÷ 2) || (hours_half s1 ÷ 2 <? 8)),
      ((8 <=? hours_half s1 ÷ 2) && (hours_half s1 ÷ 2 <=? 9));
      try reflexivity; discriminate H.
  - intros H.
    destruct (10 <=? minutes_half s1),
      (hours_half s1 ÷ 2 =? 12),
      ((hours_half s1 ÷ 2 =? 16) && (minutes_half s1 ÷ 2 <=? 15)),
      ((19 <=? hours_half s1 ÷ 2) || (hours_half s1 ÷ 2 <? 8)),
      ((8 <=? hours_half s1 ÷ 2) && (hours_half s1 ÷ 2 <=? 9));
      try reflexivity; discriminate H.
Qed.

Lemma select_deterministic_witness :
  animation_index
    (selectAnimationByTime (set_animation_index 4 (at_time 31 40 false)))
  = animation_index
      (selectAnimationByTime (set_animation_index 9 (at_time 31 40 true))).
Proof.
  apply (select_deterministic
           (set_animation_index 4 (at_time 31 40 false))
           (set_animation_index 9 (at_time 31 40 true))
           eq_refl eq_refl).
  reflexivity.
Defined.

(** ** [adjustTime] *)

(** C4, counterexample.  In minute mode one step forward from 12:05:00
    ([minutes_half] = 10) gives 11, half a minute later, and not 12. *)
Lemma adjust_minutes_is_half_minute :
  setHours (at_time 24 10 false) = false /\
  minutes_half (adjustTime 1 (at_time 24 10 false)) = 11 /\
  minutes_half (adjustTime 1 (at_time 24 10 false))
    <> minutes_half (at_time 24 10 false) + 2 * 1.
Proof.
  repeat (split; [reflexivity|]). discriminate.
Qed.

(** C4, amended.  In minute mode [adjustTime delta] adds [delta] itself
    (one half-minute per step) to [minutes_half], with the two clamps: a
    negative result becomes 119, the top of the range, and a result of 120
    or more becomes 0. *)
Theorem adjust_minutes_step (s : State) (delta : Z)
    (Hmode : setHours s = false) :
  minutes_half (adjustTime delta s) =
    if minutes_half s + delta <? 0 then HALF_MINUTES_PER_HOUR - 1
    else if HALF_MINUTES_PER_HOUR <=? minutes_half s + delta then 0
    else minutes_half s + delta.
Proof.
  unfold adjustTime. rewrite Hmode. cbn.
  destruct (minutes_half s + delta <? 0); cbn; [reflexivity|].
  destruct (HALF_MINUTES_PER_HOUR <=? minutes_half s + delta); reflexivity.
Qed.

Lemma adjust_minutes_step_witness :
  minutes_half (adjustTime (-1) (at_time 24 0 false)) = 119.
Proof.
  apply (adjust_minutes_step (at_time 24 0 false) (-1) eq_refl).
Defined.

(** C8.  From a valid time, in either edit mode, one step forward and one
    step back give the state back, also across 0 and the top of the
    range. *)
Theorem adjust_round_trip (s : State)
    (Hh : 0 <= hours_half s < HALF_HOURS_PER_DAY)
    (Hm : 0 <= minutes_half s < HALF_MINUTES_PER_HOUR) :
  adjustTime (-1) (adjustTime 1 s) = s.
Proof.
  destruct s as [ai la fr hh mh sec lm lc sh lb ld ck mo tr].
  unfold_constants. cbn in Hh, Hm.
  unfold adjustTime; unfold_constants; state_simpl.
  destruct sh.
  - f_equal. arith.
  - destruct (mh + 1 <? 0) eqn:E1; to_linear; [lia|].
    destruct (120 <=? mh + 1) eqn:E2; to_linear; state_simpl.
    + replace (0 + -1 <? 0) with true by reflexivity.
      replace (120 <=? 120 - 1) with false by reflexivity.
      f_equal. lia.
    + replace (mh + 1 + -1) with mh by lia.
      destruct (mh <? 0) eqn:E3; to_linear; [lia|].
      destruct (120 <=? mh) eqn:E4; to_linear; [lia|]. reflexivity.
Qed.

Lemma adjust_round_trip_witness :
  adjustTime (-1) (adjustTime 1 (at_time 47 119 true)) = at_time 47 119 true
  /\ adjustTime (-1) (adjustTime 1 (at_time 47 119 false))
     = at_time 47 119 false.
Proof.
  split.
  - apply (adjust_round_trip (at_time 47 119 true));
      unfold_constants; cbn; lia.
  - apply (adjust_round_trip (at_time 47 119 false));
      unfold_constants; cbn; lia.
Defined.

(** C10.  [adjustTime] writes only the field selected by the edit mode:
    the state it returns is the state it was given with [hours_half]
    replaced in hour mode, or with [minutes_half] replaced in minute mode,
    and no other field touched.  So the other time field, [seconds],
    [lastMillis], the animation state, the encoder and button state
    ([lastCLK], [setHours], [lastButtonTime]), the redraw timer, the
    millisecond counter, the motor pin and the trace (no redraw, no buzz,
    no animation cycling) are as before, whatever the step and also when
    the hour wraps past midnight. *)
Theorem adjust_frame (s : State) (delta : Z) :
  let s' := adjustTime delta s in
  s' = (if setHours s
        then set_hours_half (hour_adjust delta (hours_half s)) s
        else set_minutes_half (minute_adjust delta (minutes_half s)) s) /\
  (if setHours s then minutes_half s' = minutes_half s
   else hours_half s' = hours_half s) /\
  seconds s' = seconds s /\
  animation_index s' = animation_index s /\
  last_animation s' = last_animation s /\
  frame s' = frame s /\
  setHours s' = setHours s /\
  motor s' = motor s /\
  trace s' = trace s /\
  lastMillis s' = lastMillis s /\
  lastCLK s' = lastCLK s /\
  lastButtonTime s' = lastButtonTime s /\
  lastDraw s' = lastDraw s /\
  clock s' = clock s.
Proof.
  cbv zeta.
  assert (Hwhole :
            adjustTime delta s
            = (if setHours s
               then set_hours_half (hour_adjust delta (hours_half s)) s
               else set_minutes_half
                      (minute_adjust delta (minutes_half s)) s)).
  { unfold adjustTime, hour_adjust, minute_adjust.
    destruct (setHours s); [reflexivity |]. cbv zeta.
    cbn [minutes_half set_minutes_half].
    destruct (minutes_half s + delta <? 0);
      cbn [minutes_half set_minutes_half]; [reflexivity |].
    destruct (HALF_MINUTES_PER_HOUR <=? minutes_half s + delta);
      reflexivity. }
  split; [exact Hwhole |].
  rewrite Hwhole.
  destruct (setHours s) eqn:Hmode;
    cbn [set_hours_half set_minutes_half animation_index last_animation frame
           hours_half minutes_half seconds lastMillis lastCLK setHours
           lastButtonTime lastDraw clock motor trace];
    rewrite ?Hmode; repeat split.
Qed.

(** ** What the display and the motor code leave alone *)

Lemma same_vars_refl s : same_vars s s.
Proof. constructor; reflexivity. Qed.

Lemma same_vars_trans s1 s2 s3 :
  same_vars s1 s2 -> same_vars s2 s3 -> same_vars s1 s3.
Proof.
  intros [] []; constructor; congruence.
Qed.

Lemma updateDisplay_same_vars s : same_vars s (updateDisplay s).
Proof.
  unfold updateDisplay. split_if; constructor; reflexivity.
Qed.

Lemma delay_same_vars ms s : same_vars s (delay ms s).
Proof. constructor; reflexivity. Qed.

Lemma digitalWrite_MOTOR_same_vars l s : same_vars s (digitalWrite_MOTOR l s).
Proof. constructor; reflexivity. Qed.

Lemma for_from_same_vars (body : Z -> Cmd) :
  (forall i s, same_vars s (body i s)) ->
  forall count i s, same_vars s (for_from i count body s).
Proof.
  intros Hbody. induction count as [|k IH]; intros i s; cbn [for_from].
  - apply same_vars_refl.
  - eapply same_vars_trans; [apply Hbody | apply IH].
Qed.

(** One statement at a time, from the last one back to the first. *)
Ltac same_vars_step :=
  lazymatch goal with
  | |- same_vars ?s ?s => apply same_vars_refl
  | |- same_vars _ (delay _ _) =>
      eapply same_vars_trans; [| apply delay_same_vars]
  | |- same_vars _ (updateDisplay _) =>
      eapply same_vars_trans; [| apply updateDisplay_same_vars]
  | |- same_vars _ (digitalWrite_MOTOR _ _) =>
      eapply same_vars_trans; [| apply digitalWrite_MOTOR_same_vars]
  end.

Lemma buzz_cycle_same_vars s : same_vars s (buzz_cycle s).
Proof.
  unfold buzz_cycle; cbv zeta. repeat same_vars_step.
Qed.

Lemma buzz_group_same_vars s : same_vars s (buzz_group s).
Proof.
  unfold buzz_group; cbv zeta. do 2 same_vars_step.
  apply for_from_same_vars. intros _. apply buzz_cycle_same_vars.
Qed.

Lemma triggerMotorBuzz_same_vars s : same_vars s (triggerMotorBuzz s).
Proof.
  apply for_from_same_vars. intros _. apply buzz_group_same_vars.
Qed.

(** ** The events of [triggerMotorBuzz] *)

Lemma pin_events_app a b : pin_events (a ++ b) = pin_events a ++ pin_events b.
Proof. apply filter_app. Qed.

Lemma total_delay_pin_events evs : total_delay (pin_events evs) = total_delay evs.
Proof.
  unfold pin_events.
  induction evs as [|[l|ms|f hh mm d] tl IH]; cbn; congruence.
Qed.

Lemma on_intervals_pin_events evs :
  forall lvl acc,
    on_intervals lvl acc (pin_events evs) = on_intervals lvl acc evs.
Proof.
  unfold pin_events.
  induction evs as [|[l|ms|f hh mm d] tl IH]; intros lvl acc; cbn.
  - reflexivity.
  - destruct l, lvl; rewrite ?IH; reflexivity.
  - apply IH.
  - apply IH.
Qed.

Lemma appends_refl s : appends s s [].
Proof. exists []. rewrite app_nil_r. split; reflexivity. Qed.

Lemma appends_trans s1 s2 s3 p1 p2 :
  appends s1 s2 p1 -> appends s2 s3 p2 -> appends s1 s3 (p1 ++ p2).
Proof.
  intros (e1 & T1 & P1) (e2 & T2 & P2).
  exists (e1 ++ e2). split.
  - rewrite T2, T1, app_assoc. reflexivity.
  - rewrite pin_events_app, P1, P2. reflexivity.
Qed.

Lemma appends_updateDisplay s : appends s (updateDisplay s) [].
Proof.
  unfold updateDisplay. split_if.
  - apply appends_refl.
  - eexists. split; reflexivity.
Qed.

Lemma appends_delay ms s : appends s (delay ms s) [EvDelay ms].
Proof. eexists. split; reflexivity. Qed.

Lemma appends_digitalWrite_MOTOR l s :
  appends s (digitalWrite_MOTOR l s) [EvMotor l].
Proof. eexists. split; reflexivity. Qed.

Lemma appends_for_from (body : Z -> Cmd) pat :
  (forall i, emits (body i) pat) ->
  forall count i, emits (for_from i count body) (concat (repeat pat count)).
Proof.
  intros Hbody. induction count as [|k IH]; intros i s; cbn [for_from].
  - apply appends_refl.
  - cbn [repeat concat].
    eapply appends_trans; [apply Hbody | apply IH].
Qed.

Lemma emits_buzz_cycle : emits buzz_cycle cycle_pattern.
Proof.
  intros s. unfold buzz_cycle; cbv zeta.
  change cycle_pattern with
    (((((((([EvMotor HIGH] ++ []) ++ [EvDelay MOTOR_BUZZ_DURATION_MS]) ++ [])
          ++ [EvDelay MOTOR_BUZZ_DURATION_MS]) ++ [EvMotor LOW]) ++ [])
       ++ [EvDelay MOTOR_PAUSE_DURATION_MS])).
  eapply appends_trans; [| apply appends_delay].
  eapply appends_trans; [| apply appends_updateDisplay].
  eapply appends_trans; [| apply appends_digitalWrite_MOTOR].
  eapply appends_trans; [| apply appends_delay].
  eapply appends_trans; [| apply appends_updateDisplay].
  eapply appends_trans; [| apply appends_delay].
  eapply appends_trans; [| apply appends_updateDisplay].
  apply appends_digitalWrite_MOTOR.
Qed.

Lemma emits_buzz_group : emits buzz_group group_pattern.
Proof.
  intros s. unfold buzz_group, group_pattern; cbv zeta.
  eapply appends_trans; [| apply appends_delay].
  rewrite <- (app_nil_r (concat _)).
  eapply appends_trans; [| apply appends_updateDisplay].
  apply appends_for_from. intros _. apply emits_buzz_cycle.
Qed.

Lemma emits_triggerMotorBuzz : emits triggerMotorBuzz buzz_pattern.
Proof.
  apply appends_for_from. intros _. apply emits_buzz_group.
Qed.

Lemma updateDisplay_motor s : motor (updateDisplay s) = motor s.
Proof. unfold updateDisplay. split_if; reflexivity. Qed.

Lemma delay_motor ms s : motor (delay ms s) = motor s.
Proof. reflexivity. Qed.

(** A property that every iteration establishes holds after a loop that
    runs at least once. *)
Lemma for_from_post (P : State -> Prop) (body : Z -> Cmd) :
  (forall i s, P (body i s)) ->
  forall count i s, count <> O -> P (for_from i count body s).
Proof.
  intros Hbody. induction count as [|k IH]; intros i s Hcount; [easy|].
  cbn [for_from]. destruct k as [|k'].
  - apply Hbody.
  - apply IH. discriminate.
Qed.

Lemma buzz_cycle_motor s : motor (buzz_cycle s) = LOW.
Proof.
  unfold buzz_cycle; cbv zeta.
  rewrite delay_motor, updateDisplay_motor. reflexivity.
Qed.

Lemma buzz_group_motor s : motor (buzz_group s) = LOW.
Proof.
  unfold buzz_group; cbv zeta.
  rewrite delay_motor, updateDisplay_motor.
  apply (for_from_post (fun s' => motor s' = LOW)).
  - intros _. apply buzz_cycle_motor.
  - discriminate.
Qed.

Lemma triggerMotorBuzz_motor s : motor (triggerMotorBuzz s) = LOW.
Proof.
  apply (for_from_post (fun s' => motor s' = LOW)).
  - intros _. apply buzz_group_motor.
  - discriminate.
Qed.

(** The millisecond counter over the pattern. *)
Lemma uadd_uadd a b c : uadd (uadd a b) c = uadd a (b + c).
Proof.
  unfold uadd, uwrap, ULONG_MODULUS.
  rewrite Zplus_mod_idemp_l. f_equal. lia.
Qed.

Lemma updateDisplay_clock s : clock (updateDisplay s) = clock s.
Proof. unfold updateDisplay. split_if; reflexivity. Qed.

Lemma delay_clock ms s : clock (delay ms s) = uadd (clock s) ms.
Proof. reflexivity. Qed.

Lemma digitalWrite_MOTOR_clock l s : clock (digitalWrite_MOTOR l s) = clock s.
Proof. reflexivity. Qed.

Lemma for_from_clock (body : Z -> Cmd) (d : Z) :
  (forall i s, clock (body i s) = uadd (clock s) d) ->
  forall k i s,
    clock (for_from i (S k) body s) = uadd (clock s) (Z.of_nat (S k) * d).
Proof.
  intros Hbody. induction k as [|k IH]; intros i s.
  - cbn [for_from]. rewrite Hbody. f_equal. lia.
  - change (for_from i (S (S k)) body s)
      with (for_from (i + 1) (S k) body (body i s)).
    rewrite IH, Hbody, uadd_uadd. f_equal. lia.
Qed.

Lemma buzz_cycle_clock s :
  clock (buzz_cycle s)
  = uadd (clock s) (2 * MOTOR_BUZZ_DURATION_MS + MOTOR_PAUSE_DURATION_MS).
Proof.
  unfold buzz_cycle; cbv zeta.
  rewrite delay_clock, updateDisplay_clock, digitalWrite_MOTOR_clock.
  rewrite delay_clock, updateDisplay_clock, delay_clock, updateDisplay_clock.
  rewrite digitalWrite_MOTOR_clock, !uadd_uadd. reflexivity.
Qed.

Lemma buzz_group_clock s :
  clock (buzz_group s)
  = uadd (clock s)
      (MOTOR_BUZZ_CYCLES
       * (2 * MOTOR_BUZZ_DURATION_MS + MOTOR_PAUSE_DURATION_MS)
       + MOTOR_CYCLE_PAUSE_MS).
Proof.
  unfold buzz_group; cbv zeta.
  rewrite delay_clock, updateDisplay_clock.
  unfold for_loop. change (Z.to_nat MOTOR_BUZZ_CYCLES) with 3%nat.
  rewrite (for_from_clock _ _ (fun _ => buzz_cycle_clock)), uadd_uadd.
  reflexivity.
Qed.

Lemma triggerMotorBuzz_clock s :
  clock (triggerMotorBuzz s)
  = uadd (clock s)
      (MOTOR_BUZZ_GROUPS
       * (MOTOR_BUZZ_CYCLES
          * (2 * MOTOR_BUZZ_DURATION_MS + MOTOR_PAUSE_DURATION_MS)
          + MOTOR_CYCLE_PAUSE_MS)).
Proof.
  unfold triggerMotorBuzz, for_loop.
  change (Z.to_nat MOTOR_BUZZ_GROUPS) with 5%nat.
  rewrite (for_from_clock _ _ (fun _ => buzz_group_clock)). reflexivity.
Qed.

(** C1, counterexample.  Run from the power-on state, the pattern waits
    3450 ms in all, not 2400 ms, and the motor is on for 15 periods of
    140 ms each, not of 70 ms. *)
Lemma buzz_is_not_2400_ms :
  let evs := emitted power_on (triggerMotorBuzz power_on) in
  total_delay evs = 3450 /\
  total_delay evs <> 2400 /\
  on_intervals LOW 0 evs = repeat 140 15 /\
  on_intervals LOW 0 evs <> repeat 70 15.
Proof.
  vm_compute. repeat split; discriminate.
Qed.

(** C1, amended.  One call of [triggerMotorBuzz] runs 5 groups of 3 cycles;
    in each cycle the motor is on for two waits of 70 ms (140 ms) and then
    off for 70 ms, and each group ends with a wait of 60 ms.  The waits add
    up to 5 * (3 * 210 + 60) = 3450 ms, which is also how far the
    millisecond counter has moved; the motor is HIGH for exactly 15 periods
    of 140 ms, and it is LOW at the end. *)
Theorem buzz_timing (s : State) :
  exists evs,
    trace (triggerMotorBuzz s) = trace s ++ evs /\
    pin_events evs = buzz_pattern /\
    total_delay evs =
      MOTOR_BUZZ_GROUPS
      * (MOTOR_BUZZ_CYCLES
         * (2 * MOTOR_BUZZ_DURATION_MS + MOTOR_PAUSE_DURATION_MS)
         + MOTOR_CYCLE_PAUSE_MS) /\
    total_delay evs = 3450 /\
    clock (triggerMotorBuzz s) = uadd (clock s) 3450 /\
    on_intervals (motor s) 0 evs = repeat (2 * MOTOR_BUZZ_DURATION_MS) 15 /\
    motor (triggerMotorBuzz s) = LOW.
Proof.
  destruct (emits_triggerMotorBuzz s) as (evs & Htrace & Hpins).
  exists evs.
  rewrite <- (total_delay_pin_events evs), <- (on_intervals_pin_events evs), Hpins.
  split; [assumption|]. split; [reflexivity|].
  split; [reflexivity|]. split; [reflexivity|].
  split; [apply triggerMotorBuzz_clock|].
  split; [destruct (motor s); reflexivity | apply triggerMotorBuzz_motor].
Qed.

(** ** The hour rollover and the minute increment *)

(** The five assignments that open the rollover (lines 120-126). *)
Lemma hourRollover_vars s :
  same_vars
    (set_animation_index (Z.rem (last_animation s) NUM_ANIMATIONS + 1)
       (set_last_animation (Z.rem (last_animation s) NUM_ANIMATIONS + 1)
          (set_hours_half (hour_step (hours_half s))
             (set_minutes_half 0 s))))
    (hourRollover s).
Proof.
  unfold hourRollover; cbv zeta.
  match goal with
  | |- context [if ?b then _ else _] => destruct b
  end.
  - eapply same_vars_trans; [| apply triggerMotorBuzz_same_vars].
    eapply same_vars_trans; [| apply updateDisplay_same_vars].
    constructor; reflexivity.
  - eapply same_vars_trans; [| apply updateDisplay_same_vars].
    constructor; reflexivity.
Qed.

Lemma minuteIncrement_minutes s :
  minutes_half (minuteIncrement s) = minute_step (minutes_half s).
Proof.
  unfold minuteIncrement, hourCascade, minute_step.
  cbn [minutes_half set_minutes_half].
  split_if; [| reflexivity].
  rewrite (sv_minutes_half _ _ (hourRollover_vars _)). reflexivity.
Qed.

Lemma minuteIncrement_hours s :
  hours_half (minuteIncrement s) =
    if HALF_MINUTES_PER_HOUR <=? minutes_half s + 2
    then hour_step (hours_half s) else hours_half s.
Proof.
  unfold minuteIncrement, hourCascade.
  cbn [minutes_half set_minutes_half].
  split_if; [| reflexivity].
  rewrite (sv_hours_half _ _ (hourRollover_vars _)). reflexivity.
Qed.

Lemma iter_minuteIncrement_minutes n s :
  minutes_half (Nat.iter n minuteIncrement s)
  = Nat.iter n minute_step (minutes_half s).
Proof.
  induction n as [|n IH]; [reflexivity|].
  rewrite !Nat.iter_succ, minuteIncrement_minutes, IH. reflexivity.
Qed.

Lemma rollovers_minutes n :
  forall s, rollovers n s = minute_rollovers n (minutes_half s).
Proof.
  induction n as [|n IH]; intros s; [reflexivity|].
  cbn [rollovers minute_rollovers].
  rewrite IH, minuteIncrement_minutes. reflexivity.
Qed.

(** Every rollover counted by [rollovers] moves the hour on by one. *)
Lemma iter_minuteIncrement_hours n :
  forall s,
    hours_half (Nat.iter n minuteIncrement s)
    = Nat.iter (rollovers n s) hour_step (hours_half s).
Proof.
  induction n as [|n IH]; intros s; [reflexivity|].
  rewrite Nat.iter_succ_r, IH, minuteIncrement_hours.
  cbn [rollovers]. split_if; [| reflexivity].
  rewrite Nat.iter_succ_r. reflexivity.
Qed.

Lemma below_120 (P : Z -> bool) :
  forallb P (map Z.of_nat (seq 0 120)) = true ->
  forall m, 0 <= m < 120 -> P m = true.
Proof.
  intros Hall m Hm.
  rewrite forallb_forall in Hall. apply Hall.
  rewrite <- (Z2Nat.id m) by lia.
  apply in_map, in_seq. lia.
Qed.

Lemma minute_cycle_ok_all m : 0 <= m < 120 -> minute_cycle_ok m = true.
Proof.
  apply below_120. vm_compute. reflexivity.
Qed.

Lemma minute_cycle_ok_spec m :
  minute_cycle_ok m = true ->
  minute_rollovers 60 m = 1%nat /\
  Nat.iter 60 minute_step m = if Z.even m then m else m - 1.
Proof.
  unfold minute_cycle_ok. intros Hok.
  apply andb_true_iff in Hok. destruct Hok as [Hval Hroll].
  split; [apply Nat.eqb_eq, Hroll | apply Z.eqb_eq, Hval].
Qed.

(** At a minute boundary [updateTime] is the minute increment followed by
    the animation selection. *)
Lemma updateTime_minute_boundary s :
  second_due s = true ->
  seconds s = SECONDS_PER_MINUTE - 1 ->
  updateTime s =
    selectAnimationByTime
      (minuteIncrement
         (set_seconds 0
            (set_lastMillis (uadd (lastMillis s) MILLIS_PER_SECOND) s))).
Proof.
  unfold second_due, updateTime, minuteCascade, minuteIncrement, millis.
  intros -> Hsec. cbv zeta.
  cbn [seconds set_seconds set_lastMillis minutes_half].
  rewrite Hsec. reflexivity.
Qed.

(** C7, counterexample.  From 12:00:30 ([minutes_half] = 1, reached from
    power-on by one encoder step) sixty increments end at [minutes_half] = 0
    and not at 1. *)
Lemma minute_cycle_odd_start :
  minutes_half (adjustTime 1 power_on) = 1 /\
  rollovers 60 (adjustTime 1 power_on) = 1%nat /\
  minutes_half (Nat.iter 60 minuteIncrement (adjustTime 1 power_on)) = 0 /\
  minutes_half (Nat.iter 60 minuteIncrement (adjustTime 1 power_on))
    <> minutes_half (adjustTime 1 power_on).
Proof.
  rewrite rollovers_minutes, iter_minuteIncrement_minutes.
  vm_compute. repeat split; discriminate.
Qed.

(** C7, amended.  From every [minutes_half] in [0,120), sixty minute
    increments take the hour rollover exactly once (the hour moves on by
    one); an even [minutes_half] is back at its original value, an odd one
    ends one half-minute lower. *)
Theorem minute_cycle (s : State)
    (Hm : 0 <= minutes_half s < HALF_MINUTES_PER_HOUR) :
  rollovers 60 s = 1%nat /\
  hours_half (Nat.iter 60 minuteIncrement s) = hour_step (hours_half s) /\
  minutes_half (Nat.iter 60 minuteIncrement s) =
    if Z.even (minutes_half s) then minutes_half s else minutes_half s - 1.
Proof.
  rewrite iter_minuteIncrement_hours, iter_minuteIncrement_minutes,
    rollovers_minutes.
  destruct (minute_cycle_ok_spec (minutes_half s)) as [Hroll Hval].
  - apply minute_cycle_ok_all. exact Hm.
  - rewrite Hroll. split; [reflexivity|]. split; [reflexivity | exact Hval].
Qed.

Lemma minute_cycle_witness :
  rollovers 60 (at_time 46 118 false) = 1%nat /\
  hours_half (Nat.iter 60 minuteIncrement (at_time 46 118 false)) = 0 /\
  minutes_half (Nat.iter 60 minuteIncrement (at_time 46 118 false)) = 118.
Proof.
  apply (minute_cycle (at_time 46 118 false)).
  unfold_constants; cbn; lia.
Defined.

(** ** [updateTime]: one second per call, backlog kept *)

Lemma select_same_but_index s :
  seconds (selectAnimationByTime s) = seconds s /\
  lastMillis (selectAnimationByTime s) = lastMillis s /\
  clock (selectAnimationByTime s) = clock s /\
  minutes_half (selectAnimationByTime s) = minutes_half s /\
  hours_half (selectAnimationByTime s) = hours_half s.
Proof.
  destruct (select_writes_only_index s) as [v ->]. repeat split.
Qed.

Lemma hourCascade_seconds s : seconds (hourCascade s) = seconds s.
Proof.
  unfold hourCascade. split_if; [| reflexivity].
  rewrite (sv_seconds _ _ (hourRollover_vars _)). reflexivity.
Qed.

Lemma hourCascade_lastMillis s : lastMillis (hourCascade s) = lastMillis s.
Proof.
  unfold hourCascade. split_if; [| reflexivity].
  rewrite (sv_lastMillis _ _ (hourRollover_vars _)). reflexivity.
Qed.

Lemma minuteCascade_seconds s :
  seconds (minuteCascade s) =
    if SECONDS_PER_MINUTE <=? seconds s then 0 else seconds s.
Proof.
  unfold minuteCascade. split_if; reflexivity.
Qed.

(** A call advances [seconds] by one, wraps it to zero, or leaves it. *)
Lemma updateTime_seconds s :
  seconds (updateTime s) =
    if second_due s
    then (if SECONDS_PER_MINUTE <=? seconds s + 1 then 0 else seconds s + 1)
    else seconds s.
Proof.
  unfold updateTime, second_due, millis. split_if; [| reflexivity].
  cbv zeta.
  rewrite (proj1 (select_same_but_index _)), hourCascade_seconds,
    minuteCascade_seconds.
  reflexivity.
Qed.

(** A processed second moves [lastMillis] on by exactly one second; it is
    never set to the current time. *)
Lemma updateTime_lastMillis s :
  lastMillis (updateTime s) =
    if second_due s then uadd (lastMillis s) MILLIS_PER_SECOND
    else lastMillis s.
Proof.
  unfold updateTime, second_due, millis. split_if; [| reflexivity].
  cbv zeta.
  rewrite (proj1 (proj2 (select_same_but_index _))), hourCascade_lastMillis.
  unfold minuteCascade. split_if; reflexivity.
Qed.

(** Away from the minute boundary a due call is the plain second step. *)
Lemma updateTime_plain_second s :
  second_due s = true ->
  seconds s + 1 < SECONDS_PER_MINUTE ->
  minutes_half s < HALF_MINUTES_PER_HOUR ->
  updateTime s =
    selectAnimationByTime
      (set_seconds (seconds s + 1)
         (set_lastMillis (uadd (lastMillis s) MILLIS_PER_SECOND) s)).
Proof.
  unfold second_due, updateTime, minuteCascade, hourCascade, millis.
  intros -> Hsec Hmin. cbv zeta.
  cbn [seconds set_seconds set_lastMillis minutes_half].
  replace (SECONDS_PER_MINUTE <=? seconds s + 1) with false
    by (symmetry; apply Z.leb_gt; lia).
  cbn [minutes_half set_seconds set_lastMillis].
  replace (HALF_MINUTES_PER_HOUR <=? minutes_half s) with false
    by (symmetry; apply Z.leb_gt; lia).
  reflexivity.
Qed.

(** [k] pending seconds are credited by [k] calls in a row, without any
    further time passing. *)
Lemma updateTime_backlog k :
  forall s,
    0 <= lastMillis s ->
    lastMillis s + MILLIS_PER_SECOND * Z.of_nat k <= clock s < ULONG_MODULUS ->
    seconds s + Z.of_nat k < SECONDS_PER_MINUTE ->
    minutes_half s < HALF_MINUTES_PER_HOUR ->
    seconds (Nat.iter k updateTime s) = seconds s + Z.of_nat k /\
    lastMillis (Nat.iter k updateTime s)
      = lastMillis s + MILLIS_PER_SECOND * Z.of_nat k /\
    clock (Nat.iter k updateTime s) = clock s.
Proof.
  induction k as [|k IH]; intros s Hlast Hback Hsec Hmin.
  - cbn [Nat.iter nat_rect Z.of_nat]. repeat split; lia.
  - rewrite Nat.iter_succ_r.
    assert (Hdue : second_due s = true).
    { unfold second_due. apply Z.leb_le. unfold_constants. arith. }
    assert (Hadd : uadd (lastMillis s) MILLIS_PER_SECOND
                   = lastMillis s + MILLIS_PER_SECOND).
    { unfold_constants. arith. }
    rewrite (updateTime_plain_second s Hdue) by lia.
    rewrite Hadd.
    set (s1 := selectAnimationByTime _).
    assert (H1 : seconds s1 = seconds s + 1
                 /\ lastMillis s1 = lastMillis s + MILLIS_PER_SECOND
                 /\ clock s1 = clock s
                 /\ minutes_half s1 = minutes_half s).
    { subst s1.
      destruct (select_same_but_index
                  (set_seconds (seconds s + 1)
                     (set_lastMillis (lastMillis s + MILLIS_PER_SECOND) s)))
        as (E1 & E2 & E3 & E4 & _).
      rewrite E1, E2, E3, E4. repeat split. }
    destruct H1 as (E1 & E2 & E3 & E4).
    destruct (IH s1) as (R1 & R2 & R3).
    + rewrite E2. unfold_constants. lia.
    + rewrite E2, E3. unfold_constants. lia.
    + rewrite E1. lia.
    + rewrite E4. exact Hmin.
    + rewrite R1, R2, R3, E1, E2, E3. unfold_constants. repeat split; lia.
Qed.

(** C3, counterexample.  The loop is starved for five seconds after
    power-on.  The first call credits one second, and the four calls that
    follow it at once credit the other four: nothing is lost. *)
Lemma starved_seconds_are_caught_up :
  let s := elapse 5000 power_on in
  seconds (updateTime s) = 1 /\
  seconds (updateTime (updateTime s)) = 2 /\
  seconds (Nat.iter 5 updateTime s) = 5 /\
  lastMillis (Nat.iter 5 updateTime s) = clock (Nat.iter 5 updateTime s) /\
  seconds (Nat.iter 6 updateTime s) = 5.
Proof.
  vm_compute. repeat split.
Qed.

(** C3, amended.  A call of [updateTime] advances [seconds] by at most one
    and, when it processes a second, moves [lastMillis] on by exactly
    1000 ms (never to the current time).  So seconds that went by while
    the loop was starved stay pending and are caught up by the calls that
    follow, one second per call: within a minute, [k] pending seconds are
    credited by [k] calls in a row. *)
Theorem updateTime_catches_up (s : State) (k : nat)
    (Hlast : 0 <= lastMillis s)
    (Hback : lastMillis s + MILLIS_PER_SECOND * Z.of_nat k <= clock s
             < ULONG_MODULUS)
    (Hsec : seconds s + Z.of_nat k < SECONDS_PER_MINUTE)
    (Hmin : minutes_half s < HALF_MINUTES_PER_HOUR) :
  (forall s0, seconds (updateTime s0) <= seconds s0 + 1) /\
  (forall s0, second_due s0 = true ->
              lastMillis (updateTime s0)
              = uadd (lastMillis s0) MILLIS_PER_SECOND) /\
  seconds (Nat.iter k updateTime s) = seconds s + Z.of_nat k /\
  lastMillis (Nat.iter k updateTime s)
    = lastMillis s + MILLIS_PER_SECOND * Z.of_nat k.
Proof.
  split; [| split].
  - intros s0. rewrite updateTime_seconds.
    destruct (second_due s0); [| lia].
    split_if; to_linear; unfold_constants; lia.
  - intros s0 Hdue. rewrite updateTime_lastMillis, Hdue. reflexivity.
  - destruct (updateTime_backlog k s Hlast Hback Hsec Hmin) as (R1 & R2 & _).
    split; assumption.
Qed.

Lemma updateTime_catches_up_witness :
  seconds (Nat.iter 5 updateTime (elapse 5000 power_on)) = 0 + 5 /\
  lastMillis (Nat.iter 5 updateTime (elapse 5000 power_on)) = 0 + 1000 * 5.
Proof.
  apply (updateTime_catches_up (elapse 5000 power_on) 5);
    unfold_constants; cbn; lia.
Defined.

(** ** [readEncoder]: the button *)

Lemma level_eqb_eq a b : level_eqb a b = true <-> a = b.
Proof. destruct a, b; cbn; split; congruence. Qed.

(** [adjustTime] writes the two time fields and nothing else. *)
Lemma adjustTime_writes delta s :
  adjustTime delta s =
    set_minutes_half (minutes_half (adjustTime delta s))
      (set_hours_half (hours_half (adjustTime delta s)) s).
Proof.
  unfold adjustTime. destruct (setHours s); cbv zeta.
  - reflexivity.
  - repeat split_if; reflexivity.
Qed.

Lemma adjustTime_keeps delta s :
  seconds (adjustTime delta s) = seconds s /\
  setHours (adjustTime delta s) = setHours s /\
  lastButtonTime (adjustTime delta s) = lastButtonTime s /\
  clock (adjustTime delta s) = clock s.
Proof.
  rewrite adjustTime_writes. repeat split.
Qed.

(** The effect of one [readEncoder] on the variables of the button
    branch. *)
Lemma readEncoder_button p s :
  seconds (readEncoder p s) = (if press_accepted p s then 0 else seconds s) /\
  setHours (readEncoder p s)
    = (if press_accepted p s then negb (setHours s) else setHours s) /\
  lastButtonTime (readEncoder p s)
    = (if press_accepted p s then clock s else lastButtonTime s).
Proof.
  unfold readEncoder, press_accepted, millis. cbv zeta.
  set (s1 := if level_eqb (ENCODER_CLK p) (lastCLK s) then s else _).
  assert (K : seconds s1 = seconds s /\ setHours s1 = setHours s
              /\ lastButtonTime s1 = lastButtonTime s /\ clock s1 = clock s).
  { subst s1. repeat split_if;
      first [ apply adjustTime_keeps | repeat split ]. }
  destruct K as (K1 & K2 & K3 & K4).
  cbn [clock lastButtonTime set_lastCLK].
  rewrite K3, K4.
  destruct (level_eqb (ENCODER_SW p) LOW); cbn [andb].
  - destruct (debounceDelay <? usub (clock s) (lastButtonTime s));
      cbn [seconds setHours lastButtonTime clock set_lastButtonTime
             set_setHours set_seconds set_lastCLK];
      rewrite ?K1, ?K2, ?K3, ?K4; repeat split.
  - cbn [seconds setHours lastButtonTime set_lastCLK].
    rewrite K1, K2, K3. repeat split.
Qed.

Lemma press_accepted_iff p s :
  press_accepted p s = true <->
  ENCODER_SW p = LOW /\ debounceDelay < usub (clock s) (lastButtonTime s).
Proof.
  unfold press_accepted.
  rewrite andb_true_iff, level_eqb_eq, Z.ltb_lt. reflexivity.
Qed.

(** C9, counterexample.  A press is accepted 1000 ms after power-on; the
    button reads pressed again exactly 250 ms later, and that press is not
    accepted: the edit mode has been toggled once, not twice. *)
Lemma press_at_250_ms_is_rejected :
  let s1 := readEncoder pressed_pins (elapse 1000 power_on) in
  let s2 := elapse 250 s1 in
  setHours power_on = false /\
  setHours s1 = true /\
  lastButtonTime s1 = 1000 /\
  usub (clock s2) (lastButtonTime s2) = 250 /\
  setHours (readEncoder pressed_pins s2) = true /\
  lastButtonTime (readEncoder pressed_pins s2) = 1000.
Proof.
  vm_compute. repeat split.
Qed.

(** C9, amended.  A press is accepted exactly when the button reads
    pressed and strictly more than 250 ms have passed on the (wrapping)
    millisecond counter since the last accepted press; an accepted press
    resets [seconds], flips the edit mode and records the time, a rejected
    one does none of this.  So after an accepted press a second press up to
    and including 250 ms later is dropped (one toggle in all), and one more
    than 250 ms later is accepted (two toggles, two resets). *)
Theorem button_debounce (p : Pins) (s : State) :
  (setHours (readEncoder p s) = negb (setHours s) <->
   ENCODER_SW p = LOW /\ debounceDelay < usub (clock s) (lastButtonTime s)) /\
  (press_accepted p s = true ->
   seconds (readEncoder p s) = 0 /\
   lastButtonTime (readEncoder p s) = clock s) /\
  (press_accepted p s = false ->
   seconds (readEncoder p s) = seconds s /\
   setHours (readEncoder p s) = setHours s /\
   lastButtonTime (readEncoder p s) = lastButtonTime s) /\
  (forall s2 : State,
     press_accepted p s = true ->
     setHours s2 = setHours (readEncoder p s) ->
     lastButtonTime s2 = lastButtonTime (readEncoder p s) ->
     (usub (clock s2) (clock s) <= debounceDelay ->
      setHours (readEncoder pressed_pins s2) = negb (setHours s)) /\
     (debounceDelay < usub (clock s2) (clock s) ->
      setHours (readEncoder pressed_pins s2) = setHours s /\
      seconds (readEncoder pressed_pins s2) = 0)).
Proof.
  destruct (readEncoder_button p s) as (R1 & R2 & R3).
  split; [| split; [| split]].
  - rewrite <- press_accepted_iff, R2.
    destruct (press_accepted p s), (setHours s); cbn; split; congruence.
  - intros Hacc. rewrite R1, R3, Hacc. split; reflexivity.
  - intros Hrej. rewrite R1, R2, R3, Hrej. repeat split.
  - intros s2 Hacc Hmode Hlast.
    rewrite R2, Hacc in Hmode. rewrite R3, Hacc in Hlast.
    destruct (readEncoder_button pressed_pins s2) as (Q1 & Q2 & _).
    rewrite Q1, Q2, Hmode.
    unfold press_accepted. rewrite Hlast. cbn [pressed_pins ENCODER_SW level_eqb andb].
    split; intros Hgap.
    + replace (debounceDelay <? usub (clock s2) (clock s)) with false
        by (symmetry; apply Z.ltb_ge; exact Hgap).
      reflexivity.
    + replace (debounceDelay <? usub (clock s2) (clock s)) with true
        by (symmetry; apply Z.ltb_lt; exact Hgap).
      split; [apply negb_involutive | reflexivity].
Qed.

Lemma button_debounce_witness :
  let s := elapse 1000 power_on in
  let s1 := readEncoder pressed_pins s in
  (seconds s1 = 0 /\ lastButtonTime s1 = clock s) /\
  setHours (readEncoder pressed_pins (elapse 250 s1)) = negb (setHours s) /\
  (setHours (readEncoder pressed_pins (elapse 251 s1)) = setHours s /\
   seconds (readEncoder pressed_pins (elapse 251 s1)) = 0).
Proof.
  cbv zeta.
  pose proof (button_debounce pressed_pins (elapse 1000 power_on))
    as (_ & Hacc & _ & Htwo).
  split; [| split].
  - apply Hacc. reflexivity.
  - apply (Htwo (elapse 250 (readEncoder pressed_pins (elapse 1000 power_on))));
      try reflexivity; vm_compute; discriminate.
  - apply (Htwo (elapse 251 (readEncoder pressed_pins (elapse 1000 power_on))));
      reflexivity.
Defined.

(** ** The frame cursor and the frame bands *)

(** A redraw leaves the cursor in the band of the current animation. *)
Lemma updateDisplay_redraw_in_band s :
  DISPLAY_UPDATE_INTERVAL_MS <= usub (clock s) (lastDraw s) ->
  0 <= frame s + 1 ->
  emitted s (updateDisplay s)
    = [EvDraw (frame s) (hours_half s ÷ 2) (minutes_half s ÷ 2)
         (Z.to_nat (seconds s))] /\
  in_band (animation_index (updateDisplay s)) (frame (updateDisplay s)).
Proof.
  intros Hdue Hframe. unfold updateDisplay, millis.
  replace (usub (clock s) (lastDraw s) <? DISPLAY_UPDATE_INTERVAL_MS)
    with false by (symmetry; apply Z.ltb_ge; exact Hdue).
  cbv zeta. split.
  - unfold emitted. cbn [trace set_frame emit set_lastDraw].
    rewrite skipn_app, skipn_all, Nat.sub_diag. reflexivity.
  - unfold in_band. cbn [animation_index frame set_frame emit set_lastDraw].
    unfold_constants. arith.
Qed.

(** The hour rollover moves the cursor into the band of the animation it
    selects, before it redraws. *)
Lemma cycleAnimation_in_band s :
  0 <= frame s + 1 ->
  in_band (animation_index (cycleAnimation s)) (frame (cycleAnimation s)).
Proof.
  intros Hframe. unfold in_band, cycleAnimation. cbv zeta.
  cbn [animation_index frame last_animation set_frame set_animation_index
         set_last_animation].
  unfold_constants. arith.
Qed.

(** [selectAnimationByTime] does not move the cursor. *)
Lemma select_keeps_frame s : frame (selectAnimationByTime s) = frame s.
Proof.
  destruct (select_writes_only_index s) as [v ->]. reflexivity.
Qed.

Lemma reachable_power_on : reachable power_on.
Proof. apply (reach_setup idle_pins). reflexivity. Qed.

(** C2.  One second after power-on (12:00:01) [selectAnimationByTime]
    changes the animation from 0 to 6 (lunch) and leaves the cursor where
    it was; the redraw that follows, in the same loop iteration, shows
    frame 0, which lies in band 0 and outside band 6 = [168,196).  The
    cursor is in band 6 only after that redraw. *)
Theorem select_leaves_stale_frame :
  let s0 := elapse 1000 power_on in
  let s1 := readEncoder idle_pins (updateTime s0) in
  reachable s0 /\
  reachable (loop idle_pins s0) /\
  animation_index s0 = 0 /\
  animation_index s1 = 6 /\
  loop idle_pins s0 = updateDisplay s1 /\
  drawn_frames (emitted s1 (updateDisplay s1)) = [0] /\
  in_band 0 0 /\
  ~ in_band (animation_index s1) 0 /\
  in_band 6 (frame (updateDisplay s1)).
Proof.
  cbv zeta.
  split; [apply reach_elapse; [lia | apply reachable_power_on]|].
  split; [apply reach_loop, reach_elapse; [lia | apply reachable_power_on]|].
  vm_compute. repeat split; try discriminate.
  intros [H _]. apply H. reflexivity.
Qed.

(** ** The time of day stays in range *)

Lemma same_vars_valid_time s s' :
  same_vars s s' -> valid_time s -> valid_time s'.
Proof.
  intros [] H. unfold valid_time in *. congruence.
Qed.

Lemma select_valid_time s :
  valid_time s -> valid_time (selectAnimationByTime s).
Proof.
  destruct (select_writes_only_index s) as [v ->]. exact (fun H => H).
Qed.

Lemma hourCascade_valid_time s :
  0 <= hours_half s < HALF_HOURS_PER_DAY ->
  0 <= minutes_half s ->
  0 <= seconds s < SECONDS_PER_MINUTE ->
  valid_time (hourCascade s).
Proof.
  intros Hh Hm Hs. unfold hourCascade. split_if; to_linear.
  - apply (same_vars_valid_time _ _ (hourRollover_vars s)).
    unfold valid_time, hour_step.
    cbn [hours_half minutes_half seconds set_animation_index
           set_last_animation set_hours_half set_minutes_half].
    unfold_constants. repeat split; try lia; arith.
  - unfold valid_time. repeat split; lia.
Qed.

Lemma updateTime_valid_time s : valid_time s -> valid_time (updateTime s).
Proof.
  intros (Hh & Hm & Hs). unfold updateTime. split_if; [| repeat split; lia].
  cbv zeta. apply select_valid_time.
  unfold minuteCascade.
  cbn [seconds set_seconds set_lastMillis].
  split_if; to_linear; apply hourCascade_valid_time;
    cbn [hours_half minutes_half seconds set_minutes_half set_seconds
           set_lastMillis];
    unfold_constants; lia.
Qed.

Lemma adjustTime_valid_time delta s :
  -1 <= delta <= 1 -> valid_time s -> valid_time (adjustTime delta s).
Proof.
  intros Hd (Hh & Hm & Hs). unfold valid_time, adjustTime.
  destruct (setHours s); cbv zeta.
  - cbn [hours_half minutes_half seconds set_hours_half].
    unfold_constants. repeat split; try lia; arith.
  - cbn [minutes_half set_minutes_half].
    repeat split_if;
      cbn [hours_half minutes_half seconds set_minutes_half] in *;
      to_linear; unfold_constants; repeat split; lia.
Qed.

Lemma readEncoder_valid_time p s :
  valid_time s -> valid_time (readEncoder p s).
Proof.
  intros H. unfold readEncoder. cbv zeta.
  set (s1 := if level_eqb (ENCODER_CLK p) (lastCLK s) then s else _).
  assert (H1 : valid_time s1).
  { subst s1. repeat split_if; try assumption;
      apply adjustTime_valid_time; (lia || assumption). }
  destruct H1 as (Hh & Hm & Hs).
  repeat split_if; unfold valid_time;
    cbn [hours_half minutes_half seconds set_lastCLK set_seconds set_setHours
           set_lastButtonTime];
    unfold_constants; repeat split; lia.
Qed.

(** X13.  In every state the running sketch can reach the time of day is a
    valid one: [hours_half] is in [0,48), [minutes_half] in [0,120) and
    [seconds] in [0,60), whatever the encoder did and however long the loop
    was held up. *)
Theorem reachable_valid_time (s : State) : reachable s -> valid_time s.
Proof.
  induction 1 as [p s Hsetup | dt s Hdt Hs IH | p s Hs IH].
  - cbn in Hsetup. injection Hsetup as <-.
    unfold valid_time; unfold_constants; cbn; lia.
  - exact IH.
  - unfold loop.
    eapply same_vars_valid_time; [apply updateDisplay_same_vars|].
    apply readEncoder_valid_time, updateTime_valid_time, IH.
Qed.

(** * Further properties of the sketch *)

(** ** The animation selected in each time window *)

(** X1.  The five sequential tests of [selectAnimationByTime] resolve to
    one animation per time window: morning (9) from 8:00 to 9:59, evening
    (8) from 19:00 to 7:59, lunch (6) during hour 12, the afternoon break
    (7) from 16:00 to 16:15; in every other work hour the default (0) once
    five minutes of the hour have passed, and the animation already showing
    before that. *)
Theorem select_by_time_window (s : State) :
  (8 <= currentHour s <= 9 ->
   animation_index (selectAnimationByTime s) = 9) /\
  (19 <= currentHour s \/ currentHour s < 8 ->
   animation_index (selectAnimationByTime s) = 8) /\
  (currentHour s = 12 ->
   animation_index (selectAnimationByTime s) = 6) /\
  (currentHour s = 16 -> currentMinute s <= 15 ->
   animation_index (selectAnimationByTime s) = 7) /\
  (10 <= currentHour s < 19 -> currentHour s <> 12 ->
   (currentHour s = 16 -> 15 < currentMinute s) ->
   animation_index (selectAnimationByTime s)
   = if 10 <=? minutes_half s then 0 else animation_index s).
Proof.
  rewrite select_index. cbv zeta.
  repeat apply conj; intros;
    repeat split_if; to_linear; try reflexivity; lia.
Qed.

Lemma select_by_time_window_witness :
  animation_index (selectAnimationByTime (at_time 19 118 false)) = 9 /\
  animation_index (selectAnimationByTime (at_time 2 50 false)) = 8 /\
  animation_index (selectAnimationByTime (at_time 25 0 false)) = 6 /\
  animation_index (selectAnimationByTime (at_time 32 31 false)) = 7 /\
  animation_index
    (selectAnimationByTime (set_animation_index 3 (at_time 28 9 false))) = 3.
Proof.
  split; [| split; [| split; [| split]]].
  - apply (proj1 (select_by_time_window (at_time 19 118 false))).
    vm_compute. split; discriminate.
  - apply (proj1 (proj2 (select_by_time_window (at_time 2 50 false)))).
    right. reflexivity.
  - apply (proj1 (proj2 (proj2 (select_by_time_window (at_time 25 0 false))))).
    reflexivity.
  - apply (proj1 (proj2 (proj2 (proj2
             (select_by_time_window (at_time 32 31 false)))))).
    + reflexivity.
    + vm_compute. discriminate.
  - apply (proj2 (proj2 (proj2 (proj2
             (select_by_time_window
                (set_animation_index 3 (at_time 28 9 false))))))).
    + vm_compute. split; [discriminate | reflexivity].
    + vm_compute. discriminate.
    + vm_compute. discriminate.
Defined.

(** X2.  Selecting twice is the same as selecting once: the second call
    finds the same time of day and the index the first call left. *)
Theorem select_idempotent (s : State) :
  selectAnimationByTime (selectAnimationByTime s) = selectAnimationByTime s.
Proof.
  assert (Hidx : animation_index (selectAnimationByTime (selectAnimationByTime s))
                 = animation_index (selectAnimationByTime s)).
  { rewrite (select_index (selectAnimationByTime s)).
    unfold currentHour, currentMinute.
    destruct (select_same_but_index s) as (_ & _ & _ & -> & ->).
    rewrite (select_index s).
    unfold currentHour, currentMinute. cbv zeta.
    repeat split_if; reflexivity. }
  destruct (select_writes_only_index (selectAnimationByTime s)) as [v2 E2].
  rewrite E2 in Hidx |- *.
  destruct (select_writes_only_index s) as [v1 E1].
  rewrite E1 in Hidx |- *.
  cbn [animation_index set_animation_index] in Hidx. subst v2.
  reflexivity.
Qed.

(** ** One processed second *)

Lemma hourCascade_minutes s :
  minutes_half (hourCascade s) =
    if HALF_MINUTES_PER_HOUR <=? minutes_half s then 0 else minutes_half s.
Proof.
  unfold hourCascade. split_if; [| reflexivity].
  rewrite (sv_minutes_half _ _ (hourRollover_vars _)). reflexivity.
Qed.

Lemma hourCascade_hours s :
  hours_half (hourCascade s) =
    if HALF_MINUTES_PER_HOUR <=? minutes_half s
    then hour_step (hours_half s) else hours_half s.
Proof.
  unfold hourCascade. split_if; [| reflexivity].
  rewrite (sv_hours_half _ _ (hourRollover_vars _)). reflexivity.
Qed.

Lemma minuteCascade_minutes s :
  minutes_half (minuteCascade s) =
    if SECONDS_PER_MINUTE <=? seconds s
    then minutes_half s + 2 else minutes_half s.
Proof. unfold minuteCascade. split_if; reflexivity. Qed.

Lemma minuteCascade_hours s : hours_half (minuteCascade s) = hours_half s.
Proof. unfold minuteCascade. split_if; reflexivity. Qed.

Lemma updateTime_minutes s :
  minutes_half (updateTime s) =
    if second_due s
    then (if hour_boundary s then 0
          else if SECONDS_PER_MINUTE <=? seconds s + 1
               then minutes_half s + 2 else minutes_half s)
    else minutes_half s.
Proof.
  unfold updateTime, second_due, hour_boundary, millis. cbv zeta.
  destruct (MILLIS_PER_SECOND <=? usub (clock s) (lastMillis s));
    [| reflexivity].
  match goal with
  | |- context [selectAnimationByTime ?x] =>
      destruct (select_same_but_index x) as (_ & _ & _ & -> & _)
  end.
  rewrite hourCascade_minutes, minuteCascade_minutes. reflexivity.
Qed.

Lemma updateTime_hours s :
  hours_half (updateTime s) =
    if second_due s && hour_boundary s
    then hour_step (hours_half s) else hours_half s.
Proof.
  unfold updateTime, second_due, hour_boundary, millis. cbv zeta.
  destruct (MILLIS_PER_SECOND <=? usub (clock s) (lastMillis s));
    [| reflexivity].
  cbn [andb].
  match goal with
  | |- context [selectAnimationByTime ?x] =>
      destruct (select_same_but_index x) as (_ & _ & _ & _ & ->)
  end.
  rewrite hourCascade_hours, minuteCascade_minutes, minuteCascade_hours.
  reflexivity.
Qed.

(** X3.  A call of [updateTime] that processes a second moves the time of
    day that the display shows (hour, minute, second) on by exactly one
    second, wrapping at midnight; this holds for odd half-unit values
    too. *)
Theorem updateTime_advances_time_of_day (s : State)
    (Hvalid : valid_time s) (Hdue : second_due s = true) :
  time_of_day (updateTime s) = (time_of_day s + 1) mod SECONDS_PER_DAY.
Proof.
  destruct Hvalid as (Hh & Hm & Hs).
  unfold time_of_day, currentHour, currentMinute.
  rewrite updateTime_seconds, updateTime_minutes, updateTime_hours, Hdue.
  cbn [andb]. unfold hour_boundary, hour_step, SECONDS_PER_DAY.
  unfold_constants.
  repeat split_if; to_linear; try lia; arith.
Qed.

Lemma updateTime_advances_time_of_day_witness :
  time_of_day (updateTime (set_seconds 59 (elapse 1000 (at_time 47 119 false))))
  = (86399 + 1) mod SECONDS_PER_DAY.
Proof.
  apply (updateTime_advances_time_of_day
           (set_seconds 59 (elapse 1000 (at_time 47 119 false)))).
  - unfold valid_time; unfold_constants; cbn; lia.
  - reflexivity.
Defined.

(** ** When the motor runs *)

Lemma appends_trace_eq s s' t t' pat :
  trace s' = trace s -> trace t' = trace t ->
  appends s t pat -> appends s' t' pat.
Proof.
  intros Hs Ht (evs & Htrace & Hpins). exists evs.
  rewrite Hs, Ht. split; assumption.
Qed.

Lemma appends_emitted s s' pat :
  appends s s' pat -> pin_events (emitted s s') = pat.
Proof.
  intros (evs & Htrace & Hpins). unfold emitted.
  rewrite Htrace, skipn_app, skipn_all, Nat.sub_diag. exact Hpins.
Qed.

Lemma select_trace s : trace (selectAnimationByTime s) = trace s.
Proof. destruct (select_writes_only_index s) as [v ->]. reflexivity. Qed.

Lemma select_motor s : motor (selectAnimationByTime s) = motor s.
Proof. destruct (select_writes_only_index s) as [v ->]. reflexivity. Qed.

(** The rollover as its assignments, one redraw, and the pattern in the
    work hours. *)
Lemma hourRollover_eq s :
  hourRollover s =
    let s' := updateDisplay
                (cycleAnimation
                   (set_hours_half (hour_step (hours_half s))
                      (set_minutes_half 0 s))) in
    if active_hour (hour_step (hours_half s)) then triggerMotorBuzz s' else s'.
Proof.
  unfold hourRollover, active_hour. cbv zeta.
  rewrite (sv_hours_half _ _ (updateDisplay_same_vars _)).
  reflexivity.
Qed.

Lemma hourRollover_appends s :
  appends s (hourRollover s)
    (if active_hour (hour_step (hours_half s)) then buzz_pattern else []).
Proof.
  rewrite hourRollover_eq. cbv zeta.
  set (s0 := cycleAnimation _).
  assert (H0 : appends s (updateDisplay s0) []).
  { apply (appends_trace_eq s0 s (updateDisplay s0) (updateDisplay s0));
      [reflexivity | reflexivity | apply appends_updateDisplay]. }
  destruct (active_hour (hour_step (hours_half s))); [| exact H0].
  apply (appends_trans _ _ _ [] buzz_pattern H0), emits_triggerMotorBuzz.
Qed.

Lemma hourRollover_clock s :
  clock (hourRollover s) =
    if active_hour (hour_step (hours_half s))
    then uadd (clock s)
           (MOTOR_BUZZ_GROUPS
            * (MOTOR_BUZZ_CYCLES
               * (2 * MOTOR_BUZZ_DURATION_MS + MOTOR_PAUSE_DURATION_MS)
               + MOTOR_CYCLE_PAUSE_MS))
    else clock s.
Proof.
  rewrite hourRollover_eq. cbv zeta.
  destruct (active_hour (hour_step (hours_half s)));
    rewrite ?triggerMotorBuzz_clock, updateDisplay_clock; reflexivity.
Qed.

Lemma hourRollover_motor s :
  motor s = LOW -> motor (hourRollover s) = LOW.
Proof.
  intros Hlow. rewrite hourRollover_eq. cbv zeta.
  destruct (active_hour (hour_step (hours_half s))).
  - apply triggerMotorBuzz_motor.
  - rewrite updateDisplay_motor. exact Hlow.
Qed.

Lemma minuteCascade_trace s : trace (minuteCascade s) = trace s.
Proof. unfold minuteCascade. split_if; reflexivity. Qed.

Lemma minuteCascade_clock s : clock (minuteCascade s) = clock s.
Proof. unfold minuteCascade. split_if; reflexivity. Qed.

Lemma minuteCascade_motor s : motor (minuteCascade s) = motor s.
Proof. unfold minuteCascade. split_if; reflexivity. Qed.

Lemma minuteCascade_lastMillis s : lastMillis (minuteCascade s) = lastMillis s.
Proof. unfold minuteCascade. split_if; reflexivity. Qed.

Lemma updateTime_appends s :
  appends s (updateTime s) (if buzzes s then buzz_pattern else []).
Proof.
  unfold updateTime, buzzes, second_due, hour_boundary, millis. cbv zeta.
  destruct (MILLIS_PER_SECOND <=? usub (clock s) (lastMillis s));
    [| apply appends_refl].
  cbn [andb].
  set (s1 := minuteCascade _).
  assert (Hm : minutes_half s1 =
               if SECONDS_PER_MINUTE <=? seconds s + 1
               then minutes_half s + 2 else minutes_half s)
    by (subst s1; rewrite minuteCascade_minutes; reflexivity).
  assert (Hh : hours_half s1 = hours_half s)
    by (subst s1; rewrite minuteCascade_hours; reflexivity).
  assert (Ht : trace s1 = trace s)
    by (subst s1; rewrite minuteCascade_trace; reflexivity).
  rewrite <- Hm, <- Hh.
  apply (appends_trace_eq s1 s (hourCascade s1) _);
    [symmetry; exact Ht | apply select_trace |].
  unfold hourCascade.
  destruct (HALF_MINUTES_PER_HOUR <=? minutes_half s1); cbn [andb].
  - apply hourRollover_appends.
  - apply appends_refl.
Qed.

(** X4.  [updateTime] drives the motor only when the second it processes
    completes an hour and the new hour is a work hour (9 to 19): it then
    runs exactly one pattern, and at every other call the motor pin is not
    written at all.  The pin is LOW again when the call returns. *)
Theorem updateTime_buzzes_on_work_hours (s : State) :
  pin_events (emitted s (updateTime s))
    = (if buzzes s then buzz_pattern else []) /\
  (valid_time s ->
   buzzes s = second_due s
              && ((seconds s =? 59) && (118 <=? minutes_half s))
              && ((16 <=? hours_half s) && (hours_half s <=? 37))) /\
  (motor s = LOW -> motor (updateTime s) = LOW).
Proof.
  split; [apply appends_emitted, updateTime_appends |]. split.
  - intros (Hh & Hm & Hs). unfold buzzes, hour_boundary, active_hour, hour_step.
    unfold_constants.
    destruct (second_due s); cbn [andb]; [| reflexivity].
    f_equal.
    + apply eq_true_iff_eq.
      rewrite andb_true_iff, Z.leb_le, Z.eqb_eq, Z.leb_le.
      split_if; to_linear; lia.
    + apply eq_true_iff_eq.
      rewrite !andb_true_iff, !Z.leb_le. arith.
  - intros Hlow. unfold updateTime. cbv zeta. split_if; [| exact Hlow].
    rewrite select_motor. unfold hourCascade.
    split_if.
    + apply hourRollover_motor. rewrite minuteCascade_motor. exact Hlow.
    + rewrite minuteCascade_motor. exact Hlow.
Qed.

Lemma updateTime_buzzes_on_work_hours_witness :
  buzzes (set_seconds 59 (elapse 1000 (at_time 16 118 false))) = true.
Proof.
  apply (proj1 (proj2 (updateTime_buzzes_on_work_hours
                         (set_seconds 59 (elapse 1000 (at_time 16 118 false)))))).
  unfold valid_time; unfold_constants; cbn; lia.
Defined.

(** ** The pending time across a call of [updateTime] *)

Lemma select_clock s : clock (selectAnimationByTime s) = clock s.
Proof. destruct (select_writes_only_index s) as [v ->]. reflexivity. Qed.

Lemma updateTime_clock s :
  clock (updateTime s) =
    if buzzes s
    then uadd (clock s)
           (MOTOR_BUZZ_GROUPS
            * (MOTOR_BUZZ_CYCLES
               * (2 * MOTOR_BUZZ_DURATION_MS + MOTOR_PAUSE_DURATION_MS)
               + MOTOR_CYCLE_PAUSE_MS))
    else clock s.
Proof.
  unfold updateTime, buzzes, second_due, hour_boundary, millis. cbv zeta.
  destruct (MILLIS_PER_SECOND <=? usub (clock s) (lastMillis s));
    [| reflexivity].
  cbn [andb]. rewrite select_clock. unfold hourCascade.
  rewrite minuteCascade_minutes.
  cbn [seconds minutes_half set_seconds set_lastMillis].
  destruct (HALF_MINUTES_PER_HOUR
            <=? (if SECONDS_PER_MINUTE <=? seconds s + 1
                 then minutes_half s + 2 else minutes_half s)); cbn [andb].
  - rewrite hourRollover_clock, minuteCascade_hours, minuteCascade_clock.
    reflexivity.
  - rewrite minuteCascade_clock. reflexivity.
Qed.

(** X5.  A call of [updateTime] that processes a second removes exactly
    1000 ms from the pending time [millis() - lastMillis], computed on the
    wrapping 32-bit counter, and the time spent in the motor pattern
    (3450 ms) is added to it: nothing of the elapsed time is dropped, also
    when [millis()] has wrapped around since [lastMillis]. *)
Theorem updateTime_keeps_backlog (s : State) (Hdue : second_due s = true) :
  backlog (updateTime s) =
    if buzzes s then uwrap (backlog s - MILLIS_PER_SECOND + 3450)
    else backlog s - MILLIS_PER_SECOND.
Proof.
  unfold backlog. rewrite updateTime_clock, updateTime_lastMillis, Hdue.
  unfold second_due in Hdue. apply Z.leb_le in Hdue.
  unfold_constants.
  destruct (buzzes s); arith.
Qed.

Lemma updateTime_keeps_backlog_witness :
  backlog (updateTime (set_lastMillis (ULONG_MODULUS - 500)
                         (set_clock 1700 power_on))) = 1200.
Proof.
  apply (updateTime_keeps_backlog
           (set_lastMillis (ULONG_MODULUS - 500) (set_clock 1700 power_on))).
  reflexivity.
Defined.

(** ** The redraw rate and the frame cursor *)

Lemma updateDisplay_skip s :
  usub (clock s) (lastDraw s) < DISPLAY_UPDATE_INTERVAL_MS ->
  updateDisplay s = s.
Proof.
  intros H. unfold updateDisplay, millis.
  replace (usub (clock s) (lastDraw s) <? DISPLAY_UPDATE_INTERVAL_MS)
    with true by (symmetry; apply Z.ltb_lt; exact H).
  reflexivity.
Qed.

Lemma updateDisplay_draw s :
  DISPLAY_UPDATE_INTERVAL_MS <= usub (clock s) (lastDraw s) ->
  updateDisplay s =
    set_frame (frame_step (animation_index s) (frame s))
      (emit (EvDraw (frame s) (hours_half s ÷ 2) (minutes_half s ÷ 2)
               (Z.to_nat (seconds s)))
         (set_lastDraw (clock s) s)).
Proof.
  intros H. unfold updateDisplay, millis.
  replace (usub (clock s) (lastDraw s) <? DISPLAY_UPDATE_INTERVAL_MS)
    with false by (symmetry; apply Z.ltb_ge; exact H).
  reflexivity.
Qed.

(** X6.  The display is redrawn at most once per 100 ms: a second call of
    [updateDisplay] with no time in between does nothing, and after a
    redraw every call less than 100 ms later does nothing either. *)
Theorem updateDisplay_rate_limit (s : State) :
  updateDisplay (updateDisplay s) = updateDisplay s /\
  (DISPLAY_UPDATE_INTERVAL_MS <= usub (clock s) (lastDraw s) ->
   forall dt, 0 <= dt < DISPLAY_UPDATE_INTERVAL_MS ->
     updateDisplay (elapse dt (updateDisplay s)) = elapse dt (updateDisplay s)).
Proof.
  split.
  - destruct (Z.lt_ge_cases (usub (clock s) (lastDraw s))
                DISPLAY_UPDATE_INTERVAL_MS) as [Hskip | Hdraw].
    + rewrite (updateDisplay_skip s Hskip). apply updateDisplay_skip, Hskip.
    + rewrite (updateDisplay_draw s Hdraw). apply updateDisplay_skip.
      cbn [clock lastDraw set_frame emit set_lastDraw].
      unfold_constants. arith.
  - intros Hdraw dt Hdt.
    rewrite (updateDisplay_draw s Hdraw). apply updateDisplay_skip.
    unfold elapse. cbn [clock lastDraw set_frame emit set_lastDraw set_clock].
    unfold_constants. arith.
Qed.

Lemma updateDisplay_rate_limit_witness :
  updateDisplay (elapse 99 (updateDisplay (elapse 100 power_on)))
  = elapse 99 (updateDisplay (elapse 100 power_on)).
Proof.
  apply (proj2 (updateDisplay_rate_limit (elapse 100 power_on))).
  - vm_compute. discriminate.
  - unfold_constants. lia.
Defined.

Lemma frame_step_offset a j :
  0 <= a -> 0 <= j < FRAME_COUNT ->
  frame_step a (a * FRAME_COUNT + j)
  = a * FRAME_COUNT + (j + 1) mod FRAME_COUNT.
Proof.
  unfold frame_step. unfold_constants. intros Ha Hj. arith.
Qed.

Lemma iter_frame_step a j n :
  0 <= a -> 0 <= j < FRAME_COUNT ->
  Nat.iter n (frame_step a) (a * FRAME_COUNT + j)
  = a * FRAME_COUNT + (j + Z.of_nat n) mod FRAME_COUNT.
Proof.
  intros Ha Hj. induction n as [|n IH].
  - cbn [Nat.iter nat_rect Z.of_nat]. rewrite Z.add_0_r, Z.mod_small; auto.
  - rewrite Nat.iter_succ, IH, frame_step_offset.
    + f_equal. rewrite Nat2Z.inj_succ. unfold_constants. arith.
    + exact Ha.
    + apply Z.mod_pos_bound. reflexivity.
Qed.

(** One redraw, 100 ms after the previous one. *)
Lemma redraw_after_interval_eq s :
  lastDraw s = clock s ->
  redraw_after_interval s =
    set_frame (frame_step (animation_index s) (frame s))
      (emit (EvDraw (frame s) (hours_half s ÷ 2) (minutes_half s ÷ 2)
               (Z.to_nat (seconds s)))
         (set_lastDraw (uadd (clock s) DISPLAY_UPDATE_INTERVAL_MS)
            (elapse DISPLAY_UPDATE_INTERVAL_MS s))).
Proof.
  intros Hlast. unfold redraw_after_interval.
  rewrite updateDisplay_draw; [reflexivity |].
  unfold elapse. cbn [clock lastDraw set_clock]. rewrite Hlast.
  unfold_constants. arith.
Qed.

Lemma iter_redraw n :
  forall s,
    lastDraw s = clock s ->
    let s' := Nat.iter n redraw_after_interval s in
    lastDraw s' = clock s' /\
    animation_index s' = animation_index s /\
    frame s' = Nat.iter n (frame_step (animation_index s)) (frame s).
Proof.
  induction n as [|n IH]; intros s Hlast; cbv zeta.
  - repeat split. exact Hlast.
  - rewrite !Nat.iter_succ.
    destruct (IH s Hlast) as (H1 & H2 & H3).
    rewrite (redraw_after_interval_eq _ H1).
    cbn [lastDraw clock animation_index frame set_frame emit set_lastDraw
           elapse set_clock].
    rewrite H2, H3. repeat split.
Qed.

(** X7.  While the animation stays the same, redraws walk the frame cursor
    round the band of that animation: after [n] redraws it is [n] frames
    further, modulo the 28 frames of the band, so it never leaves the band
    and is back where it started after 28 redraws. *)
Theorem frame_cursor_cycles_in_band (s : State) (n : nat)
    (Hlast : lastDraw s = clock s)
    (Hanim : 0 <= animation_index s)
    (Hband : in_band (animation_index s) (frame s)) :
  frame (Nat.iter n redraw_after_interval s)
  = animation_index s * FRAME_COUNT
    + (frame s - animation_index s * FRAME_COUNT + Z.of_nat n) mod FRAME_COUNT
  /\ in_band (animation_index (Nat.iter n redraw_after_interval s))
       (frame (Nat.iter n redraw_after_interval s))
  /\ frame (Nat.iter 28 redraw_after_interval s) = frame s.
Proof.
  unfold in_band in Hband.
  assert (Hj : 0 <= frame s - animation_index s * FRAME_COUNT < FRAME_COUNT)
    by (unfold_constants; lia).
  assert (Hf : frame s
               = animation_index s * FRAME_COUNT
                 + (frame s - animation_index s * FRAME_COUNT)) by lia.
  assert (Hiter : forall k,
             frame (Nat.iter k redraw_after_interval s)
             = animation_index s * FRAME_COUNT
               + (frame s - animation_index s * FRAME_COUNT + Z.of_nat k)
                   mod FRAME_COUNT).
  { intros k. destruct (iter_redraw k s Hlast) as (_ & _ & ->).
    rewrite Hf at 1. apply iter_frame_step; assumption. }
  split; [apply Hiter |]. split.
  - destruct (iter_redraw n s Hlast) as (_ & -> & _).
    rewrite Hiter. unfold in_band.
    pose proof (Z.mod_pos_bound
                  (frame s - animation_index s * FRAME_COUNT + Z.of_nat n)
                  FRAME_COUNT eq_refl).
    unfold_constants. lia.
  - rewrite Hiter. unfold_constants. arith.
Qed.

Lemma frame_cursor_cycles_in_band_witness :
  frame (Nat.iter 28 redraw_after_interval power_on) = frame power_on.
Proof.
  apply (frame_cursor_cycles_in_band power_on 28).
  - reflexivity.
  - vm_compute. discriminate.
  - unfold in_band; unfold_constants; cbn; lia.
Defined.

(** ** The animation state and the frames drawn stay in range *)

Lemma valid_anim_same s s' :
  animation_index s' = animation_index s ->
  last_animation s' = last_animation s ->
  frame s' = frame s ->
  trace s' = trace s ->
  valid_anim s -> valid_anim s'.
Proof.
  intros E1 E2 E3 E4 [H1 H2 H3 H4].
  constructor; rewrite ?E1, ?E2, ?E3, ?E4; assumption.
Qed.

Lemma valid_anim_delay ms s : valid_anim s -> valid_anim (delay ms s).
Proof.
  intros [H1 H2 H3 H4]. constructor; try assumption.
  cbn [trace delay emit]. apply Forall_app. split; [exact H4 |].
  repeat constructor.
Qed.

Lemma valid_anim_digitalWrite_MOTOR l s :
  valid_anim s -> valid_anim (digitalWrite_MOTOR l s).
Proof.
  intros [H1 H2 H3 H4]. constructor; try assumption.
  cbn [trace digitalWrite_MOTOR emit]. apply Forall_app. split; [exact H4 |].
  repeat constructor.
Qed.

Lemma frame_step_in_table a f :
  0 <= a <= MAX_ANIMATION_INDEX -> 0 <= f ->
  frame_in_table (frame_step a f).
Proof.
  unfold frame_in_table, frame_step, MAX_ANIMATION_INDEX. unfold_constants.
  intros Ha Hf. arith.
Qed.

Lemma valid_anim_updateDisplay s :
  valid_anim s -> valid_anim (updateDisplay s).
Proof.
  intros [H1 H2 H3 H4].
  destruct (Z.lt_ge_cases (usub (clock s) (lastDraw s))
              DISPLAY_UPDATE_INTERVAL_MS) as [Hskip | Hdraw].
  - rewrite (updateDisplay_skip s Hskip). constructor; assumption.
  - rewrite (updateDisplay_draw s Hdraw). constructor; try assumption.
    + cbn [frame set_frame]. apply frame_step_in_table; [exact H1 |].
      apply H3.
    + cbn [trace set_frame emit set_lastDraw].
      apply Forall_app. split; [exact H4 |].
      constructor; [exact H3 | constructor].
Qed.

(** A property that every iteration keeps holds after the loop. *)
Lemma for_from_inv (P : State -> Prop) (body : Z -> Cmd) :
  (forall i s, P s -> P (body i s)) ->
  forall count i s, P s -> P (for_from i count body s).
Proof.
  intros Hbody. induction count as [|k IH]; intros i s Hs; cbn [for_from].
  - exact Hs.
  - apply IH, Hbody, Hs.
Qed.

Lemma valid_anim_buzz_cycle s : valid_anim s -> valid_anim (buzz_cycle s).
Proof.
  intros H. unfold buzz_cycle; cbv zeta.
  repeat lazymatch goal with
    | |- valid_anim (delay _ _) => apply valid_anim_delay
    | |- valid_anim (updateDisplay _) => apply valid_anim_updateDisplay
    | |- valid_anim (digitalWrite_MOTOR _ _) =>
        apply valid_anim_digitalWrite_MOTOR
    end.
  exact H.
Qed.

Lemma valid_anim_triggerMotorBuzz s :
  valid_anim s -> valid_anim (triggerMotorBuzz s).
Proof.
  apply (for_from_inv valid_anim). intros _ s0 H0.
  unfold buzz_group; cbv zeta.
  apply valid_anim_delay, valid_anim_updateDisplay.
  apply (for_from_inv valid_anim); [| exact H0].
  intros _. apply valid_anim_buzz_cycle.
Qed.

Lemma valid_anim_cycleAnimation s :
  valid_anim s -> valid_anim (cycleAnimation s).
Proof.
  intros [H1 H2 H3 H4]. unfold cycleAnimation; cbv zeta.
  assert (Hlast : 1 <= Z.rem (last_animation s) NUM_ANIMATIONS + 1
                  <= NUM_ANIMATIONS)
    by (unfold_constants; arith).
  constructor;
    cbn [animation_index last_animation frame trace set_frame
           set_animation_index set_last_animation].
  - unfold MAX_ANIMATION_INDEX. unfold_constants. lia.
  - exact Hlast.
  - apply frame_step_in_table; [| apply H3].
    unfold MAX_ANIMATION_INDEX. unfold_constants. lia.
  - exact H4.
Qed.

Lemma valid_anim_hourRollover s :
  valid_anim s -> valid_anim (hourRollover s).
Proof.
  intros H. rewrite hourRollover_eq. cbv zeta.
  assert (H0 : valid_anim
                 (updateDisplay
                    (cycleAnimation
                       (set_hours_half (hour_step (hours_half s))
                          (set_minutes_half 0 s))))).
  { apply valid_anim_updateDisplay, valid_anim_cycleAnimation.
    apply (valid_anim_same s); [reflexivity .. | exact H]. }
  destruct (active_hour (hour_step (hours_half s))); [| exact H0].
  apply valid_anim_triggerMotorBuzz, H0.
Qed.

Lemma valid_anim_select s :
  valid_anim s -> valid_anim (selectAnimationByTime s).
Proof.
  intros [H1 H2 H3 H4].
  pose proof (select_index s) as Hidx.
  destruct (select_writes_only_index s) as [v E]. rewrite E in Hidx |- *.
  cbn [animation_index set_animation_index] in Hidx.
  constructor;
    cbn [animation_index last_animation frame trace set_animation_index];
    try assumption.
  rewrite Hidx. cbv zeta. unfold MAX_ANIMATION_INDEX in *.
  repeat split_if; lia.
Qed.

Lemma valid_anim_updateTime s : valid_anim s -> valid_anim (updateTime s).
Proof.
  intros H. unfold updateTime. cbv zeta. split_if; [| exact H].
  apply valid_anim_select. unfold hourCascade, minuteCascade.
  cbn [seconds set_seconds set_lastMillis].
  repeat split_if; try apply valid_anim_hourRollover;
    (apply (valid_anim_same s); [reflexivity .. | exact H]).
Qed.

(** [readEncoder] leaves the animation state and the board alone. *)
Lemma readEncoder_same_board p s :
  animation_index (readEncoder p s) = animation_index s /\
  last_animation (readEncoder p s) = last_animation s /\
  frame (readEncoder p s) = frame s /\
  lastMillis (readEncoder p s) = lastMillis s /\
  lastDraw (readEncoder p s) = lastDraw s /\
  clock (readEncoder p s) = clock s /\
  motor (readEncoder p s) = motor s /\
  trace (readEncoder p s) = trace s.
Proof.
  unfold readEncoder, millis. cbv zeta.
  set (s1 := if level_eqb (ENCODER_CLK p) (lastCLK s) then s else _).
  assert (K : s1 = set_minutes_half (minutes_half s1)
                     (set_hours_half (hours_half s1) s)).
  { subst s1. repeat split_if; try apply adjustTime_writes.
    destruct s; reflexivity. }
  rewrite K. repeat split_if; repeat split.
Qed.

Lemma valid_anim_readEncoder p s :
  valid_anim s -> valid_anim (readEncoder p s).
Proof.
  destruct (readEncoder_same_board p s) as (E1 & E2 & E3 & _ & _ & _ & _ & E4).
  apply valid_anim_same; assumption.
Qed.

Lemma valid_anim_reachable s : reachable s -> valid_anim s.
Proof.
  induction 1 as [p s Hsetup | dt s Hdt Hs IH | p s Hs IH].
  - cbn in Hsetup. injection Hsetup as <-.
    constructor; cbn; unfold frame_in_table, MAX_ANIMATION_INDEX;
      unfold_constants; try lia.
    repeat constructor.
  - apply (valid_anim_same s); [reflexivity .. | exact IH].
  - unfold loop.
    apply valid_anim_updateDisplay, valid_anim_readEncoder,
      valid_anim_updateTime, IH.
Qed.

(** X8.  In every state the running sketch can reach, [animation_index] is
    between 0 and 9, [last_animation] between 1 and 6, and the frame cursor
    and every frame that has been drawn are indices from 0 to 279: the
    sketch never reads [frames] outside the ten bands of 28 frames. *)
Theorem reachable_frames_in_table (s : State) (Hreach : reachable s) :
  0 <= animation_index s <= 9 /\
  1 <= last_animation s <= 6 /\
  0 <= frame s < 280 /\
  Forall (fun f => 0 <= f < 280) (drawn_frames (trace s)).
Proof.
  destruct (valid_anim_reachable s Hreach) as [H1 H2 H3 H4].
  repeat apply conj; try apply H1; try apply H2; try apply H3.
  clear - H4. induction H4 as [| e tl He Htl IH]; [constructor |].
  destruct e; cbn [drawn_frames]; try exact IH.
  constructor; [exact He | exact IH].
Qed.

Lemma reachable_frames_in_table_witness :
  0 <= frame (loop idle_pins (elapse 1000 power_on)) < 280.
Proof.
  apply (reachable_frames_in_table (loop idle_pins (elapse 1000 power_on))).
  apply reach_loop, reach_elapse; [lia | apply reachable_power_on].
Defined.

(** ** Manual adjustment over many steps *)

Lemma iter_mod_step (N d : Z) (f : Z -> Z) :
  0 < N ->
  (forall x, 0 <= x < N -> f x = (x + d) mod N) ->
  forall n x, 0 <= x < N -> Nat.iter n f x = (x + Z.of_nat n * d) mod N.
Proof.
  intros HN Hf. induction n as [|n IH]; intros x Hx.
  - cbn [Nat.iter nat_rect Z.of_nat]. rewrite Z.mul_0_l, Z.add_0_r.
    symmetry. apply Z.mod_small, Hx.
  - rewrite Nat.iter_succ, (IH x Hx), Hf by (apply Z.mod_pos_bound, HN).
    rewrite Zplus_mod_idemp_l. f_equal. lia.
Qed.

Lemma hour_adjust_mod d h :
  -1 <= d <= 1 -> 0 <= h < HALF_HOURS_PER_DAY ->
  hour_adjust d h = (h + d) mod HALF_HOURS_PER_DAY.
Proof.
  unfold hour_adjust. unfold_constants. intros Hd Hh. arith.
Qed.

Lemma minute_adjust_mod d m :
  -1 <= d <= 1 -> 0 <= m < HALF_MINUTES_PER_HOUR ->
  minute_adjust d m = (m + d) mod HALF_MINUTES_PER_HOUR.
Proof.
  unfold minute_adjust. unfold_constants. intros Hd Hm.
  repeat split_if; to_linear; arith.
Qed.

Lemma adjustTime_hour_mode d s :
  setHours s = true ->
  adjustTime d s = set_hours_half (hour_adjust d (hours_half s)) s.
Proof.
  intros H. unfold adjustTime. rewrite H. reflexivity.
Qed.

Lemma adjustTime_minute_mode d s :
  setHours s = false ->
  adjustTime d s = set_minutes_half (minute_adjust d (minutes_half s)) s.
Proof.
  intros H. unfold adjustTime, minute_adjust. rewrite H. cbv zeta.
  cbn [minutes_half set_minutes_half].
  destruct (minutes_half s + d <? 0); cbn [minutes_half set_minutes_half].
  - reflexivity.
  - destruct (HALF_MINUTES_PER_HOUR <=? minutes_half s + d); reflexivity.
Qed.

Lemma iter_adjustTime_hour_mode d n s :
  setHours s = true ->
  Nat.iter n (adjustTime d) s
  = set_hours_half (Nat.iter n (hour_adjust d) (hours_half s)) s.
Proof.
  intros H. induction n as [|n IH].
  - destruct s; reflexivity.
  - rewrite !Nat.iter_succ, IH, adjustTime_hour_mode by exact H.
    reflexivity.
Qed.

Lemma iter_adjustTime_minute_mode d n s :
  setHours s = false ->
  Nat.iter n (adjustTime d) s
  = set_minutes_half (Nat.iter n (minute_adjust d) (minutes_half s)) s.
Proof.
  intros H. induction n as [|n IH].
  - destruct s; reflexivity.
  - rewrite !Nat.iter_succ, IH, adjustTime_minute_mode by exact H.
    reflexivity.
Qed.

(** X9.  From a valid time, [n] encoder steps in one direction move the
    selected field by [n] half-units modulo its range (48 half-hours or 120
    half-minutes) and change nothing else; so 48 steps in hour mode, or 120
    steps in minute mode, give the starting state back. *)
Theorem adjustTime_steps (s : State) (d : Z) (n : nat)
    (Hd : d = 1 \/ d = -1) (Hvalid : valid_time s) :
  Nat.iter n (adjustTime d) s =
    (if setHours s
     then set_hours_half
            ((hours_half s + Z.of_nat n * d) mod HALF_HOURS_PER_DAY) s
     else set_minutes_half
            ((minutes_half s + Z.of_nat n * d) mod HALF_MINUTES_PER_HOUR) s)
  /\ Nat.iter (if setHours s then 48 else 120) (adjustTime d) s = s.
Proof.
  destruct Hvalid as (Hh & Hm & _).
  assert (Hd' : -1 <= d <= 1) by lia.
  destruct (setHours s) eqn:Hmode.
  - assert (Hiter : forall k,
               Nat.iter k (hour_adjust d) (hours_half s)
               = (hours_half s + Z.of_nat k * d) mod HALF_HOURS_PER_DAY).
    { intros k. apply iter_mod_step; [reflexivity | | exact Hh].
      intros x Hx. apply hour_adjust_mod; assumption. }
    rewrite !iter_adjustTime_hour_mode, !Hiter by exact Hmode.
    split; [reflexivity |].
    replace ((hours_half s + Z.of_nat 48 * d) mod HALF_HOURS_PER_DAY)
      with (hours_half s)
      by (unfold_constants; destruct Hd; subst d; arith).
    destruct s; reflexivity.
  - assert (Hiter : forall k,
               Nat.iter k (minute_adjust d) (minutes_half s)
               = (minutes_half s + Z.of_nat k * d) mod HALF_MINUTES_PER_HOUR).
    { intros k. apply iter_mod_step; [reflexivity | | exact Hm].
      intros x Hx. apply minute_adjust_mod; assumption. }
    rewrite !iter_adjustTime_minute_mode, !Hiter by exact Hmode.
    split; [reflexivity |].
    replace ((minutes_half s + Z.of_nat 120 * d) mod HALF_MINUTES_PER_HOUR)
      with (minutes_half s)
      by (unfold_constants; destruct Hd; subst d; arith).
    destruct s; reflexivity.
Qed.

Lemma adjustTime_steps_witness :
  Nat.iter 120 (adjustTime (-1)) (at_time 24 7 false) = at_time 24 7 false.
Proof.
  assert (Hvalid : valid_time (at_time 24 7 false))
    by (unfold valid_time; unfold_constants; cbn; lia).
  exact (proj2 (adjustTime_steps (at_time 24 7 false) (-1) 120
                  (or_intror eq_refl) Hvalid)).
Defined.

(** ** Hour rollovers, one after the other *)

Lemma hourRollover_hours s :
  hours_half (hourRollover s) = hour_step (hours_half s).
Proof. rewrite (sv_hours_half _ _ (hourRollover_vars s)). reflexivity. Qed.

Lemma hourRollover_last_animation s :
  last_animation (hourRollover s) = animation_step (last_animation s).
Proof. rewrite (sv_last_animation _ _ (hourRollover_vars s)). reflexivity. Qed.

Lemma hourRollover_animation_index s :
  animation_index (hourRollover s) = animation_step (last_animation s).
Proof. rewrite (sv_animation_index _ _ (hourRollover_vars s)). reflexivity. Qed.

Lemma iter_hourRollover_hours n s :
  hours_half (Nat.iter n hourRollover s) = Nat.iter n hour_step (hours_half s).
Proof.
  induction n as [|n IH]; [reflexivity |].
  rewrite !Nat.iter_succ, hourRollover_hours, IH. reflexivity.
Qed.

Lemma iter_hourRollover_last_animation n s :
  last_animation (Nat.iter n hourRollover s)
  = Nat.iter n animation_step (last_animation s).
Proof.
  induction n as [|n IH]; [reflexivity |].
  rewrite !Nat.iter_succ, hourRollover_last_animation, IH. reflexivity.
Qed.

Lemma hour_step_mod h :
  0 <= h < HALF_HOURS_PER_DAY -> hour_step h = (h + 2) mod HALF_HOURS_PER_DAY.
Proof. unfold hour_step. unfold_constants. intros Hh. arith. Qed.

Lemma iter_animation_step n l :
  1 <= l <= NUM_ANIMATIONS ->
  Nat.iter n animation_step l = (l - 1 + Z.of_nat n) mod NUM_ANIMATIONS + 1.
Proof.
  intros Hl. induction n as [|n IH].
  - cbn [Nat.iter nat_rect Z.of_nat]. unfold_constants. arith.
  - rewrite Nat.iter_succ, IH, Nat2Z.inj_succ.
    unfold animation_step. unfold_constants. arith.
Qed.

(** X10.  Successive hour rollovers move the hour on by one, modulo 24
    hours, and rotate the hourly animation through 1, 2, ..., 6 and back
    to 1; each rollover shows the animation it has rotated to.  The hour
    field is back at its value after 24 rollovers and the hourly animation
    after 6. *)
Theorem hourRollover_cycles (s : State) (n : nat)
    (Hh : 0 <= hours_half s < HALF_HOURS_PER_DAY)
    (Hl : 1 <= last_animation s <= NUM_ANIMATIONS) :
  hours_half (Nat.iter n hourRollover s)
  = (hours_half s + 2 * Z.of_nat n) mod HALF_HOURS_PER_DAY /\
  last_animation (Nat.iter n hourRollover s)
  = (last_animation s - 1 + Z.of_nat n) mod NUM_ANIMATIONS + 1 /\
  animation_index (Nat.iter (S n) hourRollover s)
  = last_animation (Nat.iter (S n) hourRollover s) /\
  hours_half (Nat.iter 24 hourRollover s) = hours_half s /\
  last_animation (Nat.iter 6 hourRollover s) = last_animation s.
Proof.
  assert (Hhours : forall k,
             hours_half (Nat.iter k hourRollover s)
             = (hours_half s + 2 * Z.of_nat k) mod HALF_HOURS_PER_DAY).
  { intros k. rewrite iter_hourRollover_hours.
    rewrite (iter_mod_step HALF_HOURS_PER_DAY 2 hour_step);
      [f_equal; lia | reflexivity | apply hour_step_mod | exact Hh]. }
  assert (Hlast : forall k,
             last_animation (Nat.iter k hourRollover s)
             = (last_animation s - 1 + Z.of_nat k) mod NUM_ANIMATIONS + 1).
  { intros k. rewrite iter_hourRollover_last_animation.
    apply iter_animation_step, Hl. }
  split; [apply Hhours |]. split; [apply Hlast |]. split; [| split].
  - rewrite Nat.iter_succ, hourRollover_animation_index,
      hourRollover_last_animation. reflexivity.
  - rewrite Hhours. unfold_constants. arith.
  - rewrite Hlast. unfold_constants. arith.
Qed.

Lemma hourRollover_cycles_witness :
  hours_half (Nat.iter 24 hourRollover power_on) = hours_half power_on /\
  last_animation (Nat.iter 6 hourRollover power_on) = last_animation power_on.
Proof.
  assert (Hh : 0 <= hours_half power_on < HALF_HOURS_PER_DAY)
    by (unfold_constants; cbn; lia).
  assert (Hl : 1 <= last_animation power_on <= NUM_ANIMATIONS)
    by (unfold_constants; cbn; lia).
  exact (proj2 (proj2 (proj2 (hourRollover_cycles power_on 0 Hh Hl)))).
Defined.

Lemma concat_repeat_snoc (p : list event) k :
  concat (repeat p k) ++ p = concat (repeat p (S k)).
Proof.
  induction k as [|k IH].
  - cbn. rewrite app_nil_r. reflexivity.
  - cbn [repeat concat] in *. rewrite <- app_assoc, IH. reflexivity.
Qed.

Lemma iter_hourRollover_appends n :
  forall s,
    appends s (Nat.iter n hourRollover s)
      (concat (repeat buzz_pattern (active_count n (hours_half s)))).
Proof.
  induction n as [|n IH]; intros s.
  - apply appends_refl.
  - rewrite Nat.iter_succ_r. cbn [active_count].
    pose proof (hourRollover_appends s) as H1.
    pose proof (IH (hourRollover s)) as H2.
    rewrite hourRollover_hours in H2.
    pose proof (appends_trans _ _ _ _ _ H1 H2) as H.
    destruct (active_hour (hour_step (hours_half s))); exact H.
Qed.

Lemma forallb_below (n : nat) (P : Z -> bool) :
  forallb P (map Z.of_nat (seq 0 n)) = true ->
  forall m, 0 <= m < Z.of_nat n -> P m = true.
Proof.
  intros Hall m Hm.
  rewrite forallb_forall in Hall. apply Hall.
  rewrite <- (Z2Nat.id m) by lia.
  apply in_map, in_seq. lia.
Qed.

Lemma active_count_day h :
  0 <= h < HALF_HOURS_PER_DAY -> active_count 24 h = 11%nat.
Proof.
  intros Hh. apply Nat.eqb_eq.
  apply (forallb_below 48 (fun x => Nat.eqb (active_count 24 x) 11));
    [vm_compute; reflexivity | exact Hh].
Qed.

(** X11.  Over the 24 hour rollovers of a day, from any hour, the motor
    pattern runs exactly 11 times (on entering the hours 9 to 19) and the
    motor is not written otherwise: 165 periods of 140 ms with the motor
    on. *)
Theorem buzzes_per_day (s : State)
    (Hh : 0 <= hours_half s < HALF_HOURS_PER_DAY) :
  pin_events (emitted s (Nat.iter 24 hourRollover s))
  = concat (repeat buzz_pattern 11) /\
  on_intervals LOW 0 (emitted s (Nat.iter 24 hourRollover s))
  = repeat (2 * MOTOR_BUZZ_DURATION_MS) 165.
Proof.
  pose proof (appends_emitted _ _ _ (iter_hourRollover_appends 24 s)) as H.
  rewrite (active_count_day _ Hh) in H.
  split; [exact H |].
  rewrite <- on_intervals_pin_events, H. vm_compute. reflexivity.
Qed.

Lemma buzzes_per_day_witness :
  pin_events (emitted (at_time 47 0 false)
                (Nat.iter 24 hourRollover (at_time 47 0 false)))
  = concat (repeat buzz_pattern 11).
Proof.
  assert (Hh : 0 <= hours_half (at_time 47 0 false) < HALF_HOURS_PER_DAY)
    by (unfold_constants; cbn; lia).
  exact (proj1 (buzzes_per_day (at_time 47 0 false) Hh)).
Defined.

(** ** The frames drawn during an hour rollover *)

Lemma frame_step_in_band a f :
  0 <= a -> 0 <= f + 1 -> in_band a (frame_step a f).
Proof.
  unfold in_band, frame_step. unfold_constants. intros Ha Hf. arith.
Qed.

Lemma draws_within_pin a base t e :
  is_pin_event e = true ->
  animation_index (emit e t) = animation_index t ->
  draws_within a base t -> draws_within a base (emit e t).
Proof.
  intros Hpin _ (Ha & Hf & evs & Ht & Hall).
  split; [exact Ha |]. split; [exact Hf |].
  exists (evs ++ [e]). split.
  - cbn [trace emit]. rewrite Ht, app_assoc. reflexivity.
  - apply Forall_app. split; [exact Hall |].
    constructor; [| constructor]. destruct e; [exact I | exact I | discriminate].
Qed.

Lemma draws_within_delay a base ms t :
  draws_within a base t -> draws_within a base (delay ms t).
Proof.
  intros (Ha & Hf & evs & Ht & Hall).
  apply (draws_within_pin a base (set_clock (uadd (clock t) ms) t)
           (EvDelay ms)); [reflexivity | reflexivity |].
  split; [exact Ha |]. split; [exact Hf |]. exists evs. split; assumption.
Qed.

Lemma draws_within_digitalWrite_MOTOR a base l t :
  draws_within a base t -> draws_within a base (digitalWrite_MOTOR l t).
Proof.
  intros (Ha & Hf & evs & Ht & Hall).
  apply (draws_within_pin a base (set_motor l t) (EvMotor l));
    [reflexivity | reflexivity |].
  split; [exact Ha |]. split; [exact Hf |]. exists evs. split; assumption.
Qed.

Lemma draws_within_updateDisplay a base t :
  0 <= a -> draws_within a base t -> draws_within a base (updateDisplay t).
Proof.
  intros Hpos (Ha & Hf & evs & Ht & Hall).
  destruct (Z.lt_ge_cases (usub (clock t) (lastDraw t))
              DISPLAY_UPDATE_INTERVAL_MS) as [Hskip | Hdraw].
  - rewrite (updateDisplay_skip t Hskip).
    split; [exact Ha |]. split; [exact Hf |]. exists evs. split; assumption.
  - rewrite (updateDisplay_draw t Hdraw).
    split; [exact Ha |]. split.
    + cbn [frame set_frame]. rewrite Ha.
      apply frame_step_in_band; [exact Hpos |].
      unfold in_band in Hf. unfold_constants. nia.
    + eexists. split.
      * cbn [trace set_frame emit set_lastDraw]. rewrite Ht, <- app_assoc.
        reflexivity.
      * apply Forall_app. split; [exact Hall |].
        constructor; [exact Hf | constructor].
Qed.

Lemma draws_within_triggerMotorBuzz a base t :
  0 <= a ->
  draws_within a base t -> draws_within a base (triggerMotorBuzz t).
Proof.
  intros Hpos.
  apply (for_from_inv (draws_within a base)). intros _ t0 H0.
  unfold buzz_group; cbv zeta.
  apply draws_within_delay, draws_within_updateDisplay; [exact Hpos |].
  apply (for_from_inv (draws_within a base)); [| exact H0].
  intros _ t1 H1. unfold buzz_cycle; cbv zeta.
  repeat lazymatch goal with
    | |- draws_within _ _ (delay _ _) => apply draws_within_delay
    | |- draws_within _ _ (updateDisplay _) =>
        apply draws_within_updateDisplay; [exact Hpos |]
    | |- draws_within _ _ (digitalWrite_MOTOR _ _) =>
        apply draws_within_digitalWrite_MOTOR
    end.
  exact H1.
Qed.

Lemma drawn_frames_in_band a evs :
  Forall (draw_in_band a) evs -> Forall (in_band a) (drawn_frames evs).
Proof.
  induction 1 as [| e tl He Htl IH]; [constructor |].
  destruct e; cbn [drawn_frames]; try exact IH.
  constructor; [exact He | exact IH].
Qed.

(** X12.  Every frame drawn during an hour rollover, the forced redraw and
    the redraws made while the motor pattern runs, belongs to the band of
    the hourly animation that the rollover has just selected, and so does
    the cursor when the rollover ends. *)
Theorem hourRollover_draws_new_band (s : State)
    (Hlast : 0 <= last_animation s) (Hframe : 0 <= frame s + 1) :
  Forall (in_band (animation_step (last_animation s)))
    (drawn_frames (emitted s (hourRollover s))) /\
  in_band (animation_index (hourRollover s)) (frame (hourRollover s)).
Proof.
  set (a := animation_step (last_animation s)).
  assert (Hpos : 0 <= a)
    by (subst a; unfold animation_step; unfold_constants; arith).
  assert (H : draws_within a (trace s) (hourRollover s)).
  { rewrite hourRollover_eq. cbv zeta.
    set (s0 := cycleAnimation _).
    assert (H0 : draws_within a (trace s) s0).
    { split; [reflexivity |]. split.
      - exact (frame_step_in_band a (frame s) Hpos Hframe).
      - exists []. split; [symmetry; apply app_nil_r | constructor]. }
    apply (draws_within_updateDisplay a _ _ Hpos) in H0.
    destruct (active_hour (hour_step (hours_half s))); [| exact H0].
    apply draws_within_triggerMotorBuzz; assumption. }
  destruct H as (Ha & Hf & evs & Ht & Hall).
  split.
  - unfold emitted. rewrite Ht, skipn_app, skipn_all, Nat.sub_diag.
    apply drawn_frames_in_band, Hall.
  - rewrite Ha. exact Hf.
Qed.

Lemma hourRollover_draws_new_band_witness :
  in_band (animation_index (hourRollover (elapse 100 power_on)))
    (frame (hourRollover (elapse 100 power_on))).
Proof.
  assert (Hlast : 0 <= last_animation (elapse 100 power_on)) by (cbn; lia).
  assert (Hframe : 0 <= frame (elapse 100 power_on) + 1) by (cbn; lia).
  exact (proj2 (hourRollover_draws_new_band (elapse 100 power_on)
                  Hlast Hframe)).
Defined.

Lemma reachable_valid_time_witness :
  valid_time (loop pressed_pins (elapse 5000 power_on)).
Proof.
  apply (reachable_valid_time (loop pressed_pins (elapse 5000 power_on))).
  apply reach_loop, reach_elapse; [lia | apply reachable_power_on].
Defined.

(** ** Everything that is ever done to the motor *)

Lemma updateTime_motor_low s : motor s = LOW -> motor (updateTime s) = LOW.
Proof.
  intros Hlow. unfold updateTime. cbv zeta. split_if; [| exact Hlow].
  rewrite select_motor. unfold hourCascade. split_if.
  - apply hourRollover_motor. rewrite minuteCascade_motor. exact Hlow.
  - rewrite minuteCascade_motor. exact Hlow.
Qed.

Lemma loop_appends p s :
  appends s (loop p s) (if buzzes s then buzz_pattern else []).
Proof.
  unfold loop.
  rewrite <- (app_nil_r (if buzzes s then buzz_pattern else [])).
  apply (appends_trans s (readEncoder p (updateTime s))); 
    [| apply appends_updateDisplay].
  destruct (readEncoder_same_board p (updateTime s))
    as (_ & _ & _ & _ & _ & _ & _ & Htrace).
  apply (appends_trace_eq s s (updateTime s) _ _ eq_refl Htrace).
  apply updateTime_appends.
Qed.

Lemma loop_motor_low p s : motor s = LOW -> motor (loop p s) = LOW.
Proof.
  intros Hlow. unfold loop. rewrite updateDisplay_motor.
  destruct (readEncoder_same_board p (updateTime s))
    as (_ & _ & _ & _ & _ & _ & -> & _).
  apply updateTime_motor_low, Hlow.
Qed.

Lemma on_intervals_buzz_pattern rest :
  on_intervals LOW 0 (buzz_pattern ++ rest)
  = repeat (2 * MOTOR_BUZZ_DURATION_MS) 15 ++ on_intervals LOW 0 rest.
Proof.
  let l := eval vm_compute in buzz_pattern in change buzz_pattern with l.
  reflexivity.
Qed.

Lemma on_intervals_patterns k :
  on_intervals LOW 0 (concat (repeat buzz_pattern k))
  = repeat (2 * MOTOR_BUZZ_DURATION_MS) (15 * k).
Proof.
  induction k as [|k IH]; [reflexivity |].
  cbn [repeat concat]. rewrite on_intervals_buzz_pattern, IH.
  rewrite <- repeat_app. f_equal. lia.
Qed.

Lemma motor_history_reachable s :
  reachable s ->
  motor s = LOW /\
  exists k, pin_events (trace s) = EvMotor LOW :: concat (repeat buzz_pattern k).
Proof.
  induction 1 as [p s Hsetup | dt s Hdt Hs IH | p s Hs IH].
  - cbn in Hsetup. injection Hsetup as <-.
    split; [reflexivity |]. exists O. reflexivity.
  - exact IH.
  - destruct IH as (Hlow & k & Hk).
    split; [apply loop_motor_low, Hlow |].
    destruct (loop_appends p s) as (evs & Htrace & Hpins).
    rewrite Htrace, pin_events_app, Hk, Hpins.
    destruct (buzzes s).
    + exists (S k). cbn [app]. rewrite concat_repeat_snoc. reflexivity.
    + exists k. rewrite app_nil_r. reflexivity.
Qed.

(** X14.  In every state the running sketch can reach the motor pin is
    LOW, and all that was ever done to the motor is the LOW of [setup]
    followed by a whole number of complete patterns: the motor has never
    been on for longer than 140 ms at a time and is never left on between
    two passes of the loop. *)
Theorem reachable_motor_history (s : State) (Hreach : reachable s) :
  motor s = LOW /\
  exists k : nat,
    pin_events (trace s) = EvMotor LOW :: concat (repeat buzz_pattern k) /\
    on_intervals LOW 0 (trace s)
    = repeat (2 * MOTOR_BUZZ_DURATION_MS) (15 * k).
Proof.
  destruct (motor_history_reachable s Hreach) as (Hlow & k & Hk).
  split; [exact Hlow |]. exists k. split; [exact Hk |].
  rewrite <- on_intervals_pin_events, Hk.
  cbn [on_intervals]. apply on_intervals_patterns.
Qed.

Lemma reachable_motor_history_witness :
  motor (loop idle_pins (elapse 1000 power_on)) = LOW.
Proof.
  assert (Hreach : reachable (loop idle_pins (elapse 1000 power_on)))
    by (apply reach_loop, reach_elapse; [lia | apply reachable_power_on]).
  exact (proj1 (reachable_motor_history _ Hreach)).
Defined.

(** ** What [readEncoder] leaves alone *)

Lemma readEncoder_lastCLK p s : lastCLK (readEncoder p s) = ENCODER_CLK p.
Proof.
  unfold readEncoder. cbv zeta. repeat split_if; reflexivity.
Qed.

Lemma readEncoder_idle p s :
  ENCODER_CLK p = lastCLK s -> ENCODER_SW p = HIGH -> readEncoder p s = s.
Proof.
  intros Hclk Hsw. unfold readEncoder. cbv zeta.
  rewrite Hclk, Hsw.
  replace (level_eqb (lastCLK s) (lastCLK s)) with true
    by (symmetry; apply level_eqb_eq; reflexivity).
  cbn [level_eqb]. destruct s; reflexivity.
Qed.

Lemma readEncoder_no_edge p s :
  ENCODER_CLK p = lastCLK s ->
  hours_half (readEncoder p s) = hours_half s /\
  minutes_half (readEncoder p s) = minutes_half s.
Proof.
  intros Hclk. unfold readEncoder. cbv zeta. rewrite Hclk.
  replace (level_eqb (lastCLK s) (lastCLK s)) with true
    by (symmetry; apply level_eqb_eq; reflexivity).
  repeat split_if; split; reflexivity.
Qed.

(** X15.  [readEncoder] never touches the animation state, the frame
    cursor, [lastMillis], the redraw timer, the clock, the motor or the
    display; it always records the CLK level it sampled.  Without an edge on
    CLK the time fields are unchanged, and with the button released as well
    the whole state is. *)
Theorem readEncoder_effects (p : Pins) (s : State) :
  (animation_index (readEncoder p s) = animation_index s /\
   last_animation (readEncoder p s) = last_animation s /\
   frame (readEncoder p s) = frame s /\
   lastMillis (readEncoder p s) = lastMillis s /\
   lastDraw (readEncoder p s) = lastDraw s /\
   clock (readEncoder p s) = clock s /\
   motor (readEncoder p s) = motor s /\
   trace (readEncoder p s) = trace s) /\
  lastCLK (readEncoder p s) = ENCODER_CLK p /\
  (ENCODER_CLK p = lastCLK s ->
   hours_half (readEncoder p s) = hours_half s /\
   minutes_half (readEncoder p s) = minutes_half s) /\
  (ENCODER_CLK p = lastCLK s -> ENCODER_SW p = HIGH -> readEncoder p s = s).
Proof.
  split; [apply readEncoder_same_board |].
  split; [apply readEncoder_lastCLK |].
  split; [apply readEncoder_no_edge | apply readEncoder_idle].
Qed.

Lemma readEncoder_effects_witness :
  readEncoder idle_pins power_on = power_on.
Proof.
  apply (proj2 (proj2 (proj2 (readEncoder_effects idle_pins power_on))));
    reflexivity.
Defined.

(** ** The animation shown on the hour *)

Lemma hourCascade_animation_index s :
  animation_index (hourCascade s) =
    if HALF_MINUTES_PER_HOUR <=? minutes_half s
    then animation_step (last_animation s) else animation_index s.
Proof.
  unfold hourCascade. split_if; [| reflexivity].
  apply hourRollover_animation_index.
Qed.

Lemma minuteCascade_last_animation s :
  last_animation (minuteCascade s) = last_animation s.
Proof. unfold minuteCascade. split_if; reflexivity. Qed.

(** X16.  When [updateTime] completes an hour, the animation it leaves
    selected is the time-of-day animation of the new hour if there is one
    (morning 9 for hours 8 and 9, evening 8 from 19 to 7, afternoon break 7
    for hour 16, lunch 6 for hour 12) and otherwise the next hourly
    animation in the rotation 1..6. *)
Theorem updateTime_on_the_hour (s : State)
    (Hdue : second_due s = true) (Hhour : hour_boundary s = true) :
  animation_index (updateTime s) =
    let h := hour_step (hours_half s) ÷ 2 in
    if (8 <=? h) && (h <=? 9) then 9
    else if (19 <=? h) || (h <? 8) then 8
    else if h =? 16 then 7
    else if h =? 12 then 6
    else animation_step (last_animation s).
Proof.
  pose proof (updateTime_hours s) as Hh.
  pose proof (updateTime_minutes s) as Hm.
  rewrite Hdue, Hhour in Hh, Hm. cbn [andb] in Hh.
  unfold updateTime, millis in *. unfold second_due in Hdue.
  cbv zeta in *. rewrite Hdue in *.
  rewrite select_index. unfold currentHour, currentMinute. cbv zeta.
  match goal with
  | H : hours_half (selectAnimationByTime ?x) = _ |- _ =>
      destruct (select_same_but_index x) as (_ & _ & _ & Em & Eh);
      rewrite Em in Hm; rewrite Eh in Hh
  end.
  rewrite Hh, Hm, hourCascade_animation_index, minuteCascade_minutes,
    minuteCascade_last_animation.
  unfold hour_boundary in Hhour.
  cbn [seconds minutes_half last_animation set_seconds set_lastMillis].
  rewrite Hhour.
  change (10 <=? 0) with false. change (0 ÷ 2 <=? 15) with true.
  rewrite andb_true_r.
  repeat split_if; to_linear; try reflexivity; lia.
Qed.

Lemma updateTime_on_the_hour_witness :
  animation_index
    (updateTime (set_seconds 59 (elapse 1000 (at_time 24 118 false)))) = 2.
Proof.
  apply (updateTime_on_the_hour
           (set_seconds 59 (elapse 1000 (at_time 24 118 false))));
    reflexivity.
Defined.
